(** * Crypto-Bot: the scrape / classify / notify pipeline of [main.py]

    A shallow embedding of [TwitterScraper.get_recent_tweets],
    [check_network_connection], [is_buy_signal] (with its tenacity retry
    decorator) and [check_influencers], followed by the properties of the
    pipeline.

    Conventions of the model.
    - Text is 7-bit: a Python [str] is a Rocq [string]; a character above 127
      is kept as the bytes of its UTF-8 encoding, has no case and is not
      white space.
    - Exceptions are the subclasses of Python's [Exception]; the signals
      that derive from [BaseException] only (KeyboardInterrupt, SystemExit,
      task cancellation) stop the process and are outside the model.
    - [await] is sequencing: the job runs alone on the event loop. *)

From Stdlib Require Import String Ascii List ZArith Lia Bool Arith DecimalString.
Import ListNotations.
Local Open Scope string_scope.

(* ===================================================================== *)
(** ** Python string primitives used by the program *)
(* ===================================================================== *)

Module PyStr.

(** [s[:n]] *)
Fixpoint take (n : nat) (s : string) : string :=
  match n, s with
  | S k, String c r => String c (take k r)
  | _, _ => ""
  end.

(** [str.isspace] on 7-bit characters: TAB, LF, VT, FF, CR, the four
    separators FS GS RS US, and the blank.  The same set is what [\s]
    matches in a [re] pattern over [str]. *)
Definition is_space (c : ascii) : bool :=
  let n := nat_of_ascii c in
  (Nat.leb 9 n && Nat.leb n 13) || (Nat.leb 28 n && Nat.leb n 32).

Definition is_empty (s : string) : bool :=
  match s with "" => true | _ => false end.

Fixpoint lstrip (s : string) : string :=
  match s with
  | String c r => if is_space c then lstrip r else s
  | "" => ""
  end.

Fixpoint rstrip (s : string) : string :=
  match s with
  | String c r =>
      let r' := rstrip r in
      if is_space c && is_empty r' then "" else String c r'
  | "" => ""
  end.

(** [s.strip()] *)
Definition strip (s : string) : string := rstrip (lstrip s).

Definition is_lower (c : ascii) : bool :=
  let n := nat_of_ascii c in Nat.leb 97 n && Nat.leb n 122.

Definition is_upper (c : ascii) : bool :=
  let n := nat_of_ascii c in Nat.leb 65 n && Nat.leb n 90.

Definition upper_char (c : ascii) : ascii :=
  if is_lower c then ascii_of_nat (nat_of_ascii c - 32) else c.

Definition lower_char (c : ascii) : ascii :=
  if is_upper c then ascii_of_nat (nat_of_ascii c + 32) else c.

Fixpoint map_chars (f : ascii -> ascii) (s : string) : string :=
  match s with
  | String c r => String (f c) (map_chars f r)
  | "" => ""
  end.

(** [s.upper()] and [s.lower()] *)
Definition upper : string -> string := map_chars upper_char.
Definition lower : string -> string := map_chars lower_char.

(** [s.startswith(p)] *)
Fixpoint startswith (p s : string) : bool :=
  match p, s with
  | "", _ => true
  | String a p', String b s' => Ascii.eqb a b && startswith p' s'
  | String _ _, "" => false
  end.

(** [sub in s] *)
Fixpoint contains (sub s : string) : bool :=
  startswith sub s ||
  match s with
  | String _ r => contains sub r
  | "" => false
  end.

(** The scan behind [split] and [replace]: [skip] counts the characters
    of a separator found earlier that are still to be passed over. *)
Fixpoint split_from (sep s : string) (skip : nat) (cur : string) : list string :=
  match s with
  | "" => [cur]
  | String c r =>
      match skip with
      | S k => split_from sep r k cur
      | 0 =>
          if startswith sep s
          then cur :: split_from sep r (String.length sep - 1) ""
          else split_from sep r 0 (cur ++ String c "")
      end
  end.

(** [s.split(sep)] for a non-empty [sep] (both separators of the program
    are string literals). *)
Definition split (s sep : string) : list string := split_from sep s 0 "".

Fixpoint replace_from (old new s : string) (skip : nat) : string :=
  match s with
  | "" => ""
  | String c r =>
      match skip with
      | S k => replace_from old new r k
      | 0 =>
          if startswith old s
          then new ++ replace_from old new r (String.length old - 1)
          else String c (replace_from old new r 0)
      end
  end.

(** [s.replace(old, new)] for a non-empty [old]. *)
Definition replace (s old new : string) : string := replace_from old new s 0.

(** [str(n)] for an integer. *)
Definition of_Z (z : Z) : string := NilZero.string_of_int (Z.to_int z).
Definition of_nat (n : nat) : string := of_Z (Z.of_nat n).

Fixpoint zeros (n : nat) : string :=
  match n with 0 => "" | S k => String "0" (zeros k) end.

(** A non-negative integer in at least [width] digits, as [%02d] gives. *)
Definition zpad (width : nat) (z : Z) : string :=
  let s := of_Z z in zeros (width - String.length s) ++ s.

(** A literal that holds characters above 127, from the bytes of the
    source file. *)
Fixpoint of_bytes (l : list nat) : string :=
  match l with
  | [] => ""
  | b :: r => String (ascii_of_nat b) (of_bytes r)
  end.

End PyStr.

(* ===================================================================== *)
(** ** [datetime]: the fields, the proleptic Gregorian ordinal, [strptime] *)
(* ===================================================================== *)

Local Open Scope Z_scope.

(** The only time zone the program uses is [timezone.utc]. *)
Inductive tzinfo : Type := timezone_utc.

Record datetime : Type := mk_datetime {
  year : Z; month : Z; day : Z;
  hour : Z; minute : Z; second : Z; microsecond : Z;
  dt_tzinfo : option tzinfo
}.

Module PyDate.

Definition is_leap (y : Z) : bool :=
  (y mod 4 =? 0) && (negb (y mod 100 =? 0) || (y mod 400 =? 0)).

Definition days_before_year (y : Z) : Z :=
  let p := y - 1 in p * 365 + p / 4 - p / 100 + p / 400.

Definition days_in_month (y m : Z) : Z :=
  if m =? 2 then (if is_leap y then 29 else 28)
  else if (m =? 4) || (m =? 6) || (m =? 9) || (m =? 11) then 30
  else 31.

(** [_DAYS_BEFORE_MONTH] *)
Definition days_before_month_table (m : Z) : Z :=
  nth (Z.to_nat m) [0; 0; 31; 59; 90; 120; 151; 181; 212; 243; 273; 304; 334] 0.

Definition days_before_month (y m : Z) : Z :=
  days_before_month_table m + (if (2 <? m) && is_leap y then 1 else 0).

(** [date.toordinal]: 0001-01-01 is day 1. *)
Definition ymd2ord (y m d : Z) : Z :=
  days_before_year y + days_before_month y m + d.

(** [date.fromordinal] *)
Definition ord2ymd (ord : Z) : Z * Z * Z :=
  let n := ord - 1 in
  let n400 := n / 146097 in let n := n mod 146097 in
  let n100 := n / 36524 in let n := n mod 36524 in
  let n4 := n / 1461 in let n := n mod 1461 in
  let n1 := n / 365 in let n := n mod 365 in
  let y := n400 * 400 + 1 + n100 * 100 + n4 * 4 + n1 in
  if (n1 =? 4) || (n100 =? 4) then (y - 1, 12, 31)
  else
    let leapyear := (n1 =? 3) && (negb (n4 =? 24) || (n100 =? 3)) in
    let m := (n + 50) / 32 in
    let preceding :=
      days_before_month_table m + (if (2 <? m) && leapyear then 1 else 0) in
    if n <? preceding
    then
      let m' := m - 1 in
      let dim := if (m' =? 2) && leapyear then 29
                 else days_in_month 1 m' in
      (y, m', n - (preceding - dim) + 1)
    else (y, m, n - preceding + 1).

Definition us_per_day : Z := 86400 * 1000000.

(** Microseconds since 0001-01-01T00:00 on the datetime's own clock. *)
Definition to_micros (d : datetime) : Z :=
  (ymd2ord (year d) (month d) (day d) - 1) * us_per_day
  + ((hour d * 60 + minute d) * 60 + second d) * 1000000 + microsecond d.

Definition of_micros (us : Z) (tz : option tzinfo) : datetime :=
  let '(y, m, d) := ord2ymd (us / us_per_day + 1) in
  let r := us mod us_per_day in
  let s := r / 1000000 in
  mk_datetime y m d (s / 3600) ((s / 60) mod 60) (s mod 60) (r mod 1000000) tz.

(** [timedelta(hours=h)], in microseconds. *)
Definition timedelta_hours (h : Z) : Z := h * 3600 * 1000000.

(** [d - delta]: through the ordinal and back, as [datetime.__add__] does.
    The range check of the result (years 1..9999) is not modelled: the
    program only subtracts one hour from the current time. *)
Definition sub (d : datetime) (delta : Z) : datetime :=
  of_micros (to_micros d - delta) (dt_tzinfo d).

(** [datetime.fromtimestamp(t, timezone.utc)] for [t] given in
    microseconds since 1970-01-01T00:00Z (ordinal 719163). *)
Definition of_unix_micros (t : N) : datetime :=
  of_micros ((719163 - 1) * us_per_day + Z.of_N t) (Some timezone_utc).

Definition fields (d : datetime) : list Z :=
  [year d; month d; day d; hour d; minute d; second d; microsecond d].

Fixpoint lex_lt (a b : list Z) : bool :=
  match a, b with
  | x :: a', y :: b' => (x <? y) || ((x =? y) && lex_lt a' b')
  | [], _ :: _ => true
  | _, [] => false
  end.

(** [a > b] for two datetimes of the same [tzinfo]: Python compares the
    field tuples. *)
Definition gt (a b : datetime) : bool := lex_lt (fields b) (fields a).

(** [d.replace(tzinfo=tz)] *)
Definition replace_tzinfo (d : datetime) (tz : option tzinfo) : datetime :=
  mk_datetime (year d) (month d) (day d) (hour d) (minute d) (second d)
              (microsecond d) tz.

(** [d.strftime('%Y-%m-%d %H:%M UTC')] *)
Definition strftime_alert (d : datetime) : string :=
  (PyStr.zpad 4 (year d) ++ "-" ++ PyStr.zpad 2 (month d) ++ "-"
   ++ PyStr.zpad 2 (day d) ++ " " ++ PyStr.zpad 2 (hour d) ++ ":"
   ++ PyStr.zpad 2 (minute d) ++ " UTC")%string.

(** [d.isoformat()] *)
Definition isoformat (d : datetime) : string :=
  (PyStr.zpad 4 (year d) ++ "-" ++ PyStr.zpad 2 (month d) ++ "-"
   ++ PyStr.zpad 2 (day d) ++ "T" ++ PyStr.zpad 2 (hour d) ++ ":"
   ++ PyStr.zpad 2 (minute d) ++ ":" ++ PyStr.zpad 2 (second d)
   ++ (if Z.eqb (microsecond d) 0 then "" else "." ++ PyStr.zpad 6 (microsecond d))
   ++ match dt_tzinfo d with Some timezone_utc => "+00:00" | None => "" end)%string.

End PyDate.

(** [datetime.strptime(s, "%b %d, %Y ¬∑ %I:%M %p")].  [_strptime] turns the
    format into a regular expression, case-insensitive, in which a run of
    blanks of the format is [\s+] and every directive is a group of
    alternatives; the first match in the order of a backtracking matcher is
    taken, and it must use up the whole string.  The parsers below return
    the matches of a piece in that order. *)
Module Strptime.

Definition parser (A : Type) : Type := string -> list (A * string).

Definition pure {A} (a : A) : parser A := fun s => [(a, s)].

Definition bind {A B} (p : parser A) (f : A -> parser B) : parser B :=
  fun s => flat_map (fun ar => f (fst ar) (snd ar)) (p s).

Definition alt {A} (p q : parser A) : parser A := fun s => (p s ++ q s)%list.

Fixpoint alts {A} (ps : list (parser A)) : parser A :=
  match ps with
  | [] => fun _ => []
  | p :: r => alt p (alts r)
  end.

Fixpoint drop (n : nat) (s : string) : string :=
  match n, s with
  | S k, String _ r => drop k r
  | _, _ => s
  end.

(** A literal of the pattern, letters compared without case. *)
Definition lit {A} (t : string) (a : A) : parser A :=
  fun s =>
    if PyStr.startswith (PyStr.lower t) (PyStr.lower (PyStr.take (String.length t) s))
    then [(a, drop (String.length t) s)] else [].

(** One decimal digit between [lo] and [hi]. *)
Definition digit (lo hi : Z) : parser Z :=
  fun s =>
    match s with
    | String c r =>
        let v := Z.of_nat (nat_of_ascii c) - 48 in
        if (lo <=? v) && (v <=? hi) then [(v, r)] else []
    | EmptyString => []
    end.

Definition two (a b : parser Z) : parser Z :=
  bind a (fun x => bind b (fun y => pure (10 * x + y))).

(** What is left after zero or more blanks, the longest run first. *)
Fixpoint after_blanks (s : string) : list string :=
  match s with
  | String c r => if PyStr.is_space c then (after_blanks r ++ [s])%list else [s]
  | EmptyString => [s]
  end.

(** [\s+] *)
Definition blanks : parser unit :=
  fun s =>
    match s with
    | String c r =>
        if PyStr.is_space c then map (fun t => (tt, t)) (after_blanks r) else []
    | EmptyString => []
    end.

(** [%b]: the abbreviated month names of the C locale. *)
Definition month_name : parser Z :=
  alts [lit "jan" 1; lit "feb" 2; lit "mar" 3; lit "apr" 4; lit "may" 5;
        lit "jun" 6; lit "jul" 7; lit "aug" 8; lit "sep" 9; lit "oct" 10;
        lit "nov" 11; lit "dec" 12].

(** [%d]: [3[0-1]|[1-2]\d|0[1-9]|[1-9]| [1-9]] *)
Definition day_of_month : parser Z :=
  alts [two (digit 3 3) (digit 0 1); two (digit 1 2) (digit 0 9);
        two (digit 0 0) (digit 1 9); digit 1 9;
        bind (lit " " tt) (fun _ => digit 1 9)].

(** [%Y]: [\d\d\d\d] *)
Definition year4 : parser Z :=
  bind (two (digit 0 9) (digit 0 9)) (fun hi =>
  bind (two (digit 0 9) (digit 0 9)) (fun lo => pure (100 * hi + lo))).

(** [%I]: [1[0-2]|0[1-9]|[1-9]] *)
Definition hour12 : parser Z :=
  alts [two (digit 1 1) (digit 0 2); two (digit 0 0) (digit 1 9); digit 1 9].

(** [%M]: [[0-5]\d|\d] *)
Definition minute2 : parser Z :=
  alts [two (digit 0 5) (digit 0 9); digit 0 9].

(** [%p]: [am|pm]; [true] is PM. *)
Definition am_pm : parser bool := alts [lit "am" false; lit "pm" true].

(** The two characters between year and hour, as the source file has
    them (bytes C2 AC E2 88 91). *)
Definition separator : string := PyStr.of_bytes [194; 172; 226; 136; 145]%nat.

Record parts : Type := mk_parts {
  p_month : Z; p_day : Z; p_year : Z; p_hour : Z; p_minute : Z; p_pm : bool
}.

Definition nitter_date : parser parts :=
  bind month_name (fun b =>
  bind blanks (fun _ =>
  bind day_of_month (fun d =>
  bind (lit "," tt) (fun _ =>
  bind blanks (fun _ =>
  bind year4 (fun y =>
  bind blanks (fun _ =>
  bind (lit separator tt) (fun _ =>
  bind blanks (fun _ =>
  bind hour12 (fun i =>
  bind (lit ":" tt) (fun _ =>
  bind minute2 (fun m =>
  bind blanks (fun _ =>
  bind am_pm (fun p =>
  pure (mk_parts b d y i m p))))))))))))))).

(** The hour of the day from [%I] and [%p]. *)
Definition hour24 (i : Z) (pm : bool) : Z :=
  if pm then (if i =? 12 then 12 else i + 12)
  else (if i =? 12 then 0 else i).

(** [None] stands for the [ValueError] of a string that does not match, of
    unconverted data after the match, and of a date that does not exist
    (year 0, February 30). *)
Definition strptime (s : string) : option datetime :=
  match nitter_date s with
  | [] => None
  | (p, rest) :: _ =>
      if PyStr.is_empty rest
         && (1 <=? p_year p) && (p_day p <=? PyDate.days_in_month (p_year p) (p_month p))
      then Some (mk_datetime (p_year p) (p_month p) (p_day p)
                             (hour24 (p_hour p) (p_pm p)) (p_minute p) 0 0 None)
      else None
  end.

End Strptime.

(* ===================================================================== *)
(** ** Exceptions *)
(* ===================================================================== *)

(** The exception classes the program names or can meet, under the names
    of their libraries: builtins, selenium, httpx, tenacity, telegram. *)
Inductive exn_class : Type :=
| Exception
| ValueError | JSONDecodeError | UnicodeDecodeError
| LookupError | IndexError | KeyError
| AttributeError | TypeError | RuntimeError
| OSError | gaierror | ConnectionError | ConnectionRefusedError | TimeoutError
| WebDriverException | NoSuchElementException | StaleElementReferenceException
| HTTPError | RequestError | TransportError
| TimeoutException | ConnectTimeout | ReadTimeout | WriteTimeout | PoolTimeout
| NetworkError | ConnectError | ReadError | WriteError | CloseError
| ProtocolError | LocalProtocolError | RemoteProtocolError
| ProxyError | UnsupportedProtocol | DecodingError | TooManyRedirects
| HTTPStatusError
| tenacity_RetryError
| TelegramError
| OtherException (name : string).

(** The direct base class; [Exception] is the root of the model. *)
Definition base (c : exn_class) : option exn_class :=
  match c with
  | Exception => None
  | JSONDecodeError | UnicodeDecodeError => Some ValueError
  | IndexError | KeyError => Some LookupError
  | gaierror | ConnectionError | TimeoutError => Some OSError
  | ConnectionRefusedError => Some ConnectionError
  | NoSuchElementException | StaleElementReferenceException => Some WebDriverException
  | RequestError | HTTPStatusError => Some HTTPError
  | TransportError | DecodingError | TooManyRedirects => Some RequestError
  | TimeoutException | NetworkError | ProtocolError | ProxyError
  | UnsupportedProtocol => Some TransportError
  | ConnectTimeout | ReadTimeout | WriteTimeout | PoolTimeout => Some TimeoutException
  | ConnectError | ReadError | WriteError | CloseError => Some NetworkError
  | LocalProtocolError | RemoteProtocolError => Some ProtocolError
  | _ => Some Exception
  end.

Definition exn_class_eq_dec (a b : exn_class) : {a = b} + {a <> b}.
Proof. decide equality. apply string_dec. Defined.

Definition class_eqb (a b : exn_class) : bool :=
  if exn_class_eq_dec a b then true else false.

(** [issubclass(c, k)], walking up at most [fuel] bases (the hierarchy is
    six deep). *)
Fixpoint issubclass_upto (fuel : nat) (c k : exn_class) : bool :=
  class_eqb c k ||
  match fuel, base c with
  | S f, Some b => issubclass_upto f b k
  | _, _ => false
  end.

Definition issubclass : exn_class -> exn_class -> bool := issubclass_upto 8.

Definition class_name (c : exn_class) : string :=
  match c with
  | Exception => "Exception"
  | ValueError => "ValueError" | JSONDecodeError => "JSONDecodeError"
  | UnicodeDecodeError => "UnicodeDecodeError"
  | LookupError => "LookupError" | IndexError => "IndexError" | KeyError => "KeyError"
  | AttributeError => "AttributeError" | TypeError => "TypeError"
  | RuntimeError => "RuntimeError"
  | OSError => "OSError" | gaierror => "gaierror"
  | ConnectionError => "ConnectionError"
  | ConnectionRefusedError => "ConnectionRefusedError"
  | TimeoutError => "TimeoutError"
  | WebDriverException => "WebDriverException"
  | NoSuchElementException => "NoSuchElementException"
  | StaleElementReferenceException => "StaleElementReferenceException"
  | HTTPError => "HTTPError" | RequestError => "RequestError"
  | TransportError => "TransportError"
  | TimeoutException => "TimeoutException" | ConnectTimeout => "ConnectTimeout"
  | ReadTimeout => "ReadTimeout" | WriteTimeout => "WriteTimeout"
  | PoolTimeout => "PoolTimeout"
  | NetworkError => "NetworkError" | ConnectError => "ConnectError"
  | ReadError => "ReadError" | WriteError => "WriteError" | CloseError => "CloseError"
  | ProtocolError => "ProtocolError" | LocalProtocolError => "LocalProtocolError"
  | RemoteProtocolError => "RemoteProtocolError"
  | ProxyError => "ProxyError" | UnsupportedProtocol => "UnsupportedProtocol"
  | DecodingError => "DecodingError" | TooManyRedirects => "TooManyRedirects"
  | HTTPStatusError => "HTTPStatusError"
  | tenacity_RetryError => "RetryError"
  | TelegramError => "TelegramError"
  | OtherException name => name
  end.

(** A raised exception: an instance of a class with its message, or
    tenacity's [RetryError], which holds the last attempt's exception. *)
Inductive exn : Type :=
| Raised (cls : exn_class) (message : string)
| RetryError (last_attempt : exn).

Definition class_of (e : exn) : exn_class :=
  match e with
  | Raised c _ => c
  | RetryError _ => tenacity_RetryError
  end.

(** [isinstance(e, k)] *)
Definition isinstance (e : exn) (k : exn_class) : bool := issubclass (class_of e) k.

(** [str(e)].  A [RetryError] prints the future of its last attempt; the
    address in that text is left out. *)
Definition str_exn (e : exn) : string :=
  match e with
  | Raised _ m => m
  | RetryError last => ("RetryError[" ++ class_name (class_of last) ++ "]")%string
  end.

Inductive result (A : Type) : Type :=
| Ret (a : A)
| Raise (e : exn).
Arguments Ret {A} a.
Arguments Raise {A} e.

(* ===================================================================== *)
(** ** The world: what the program asks of it and what it does to it *)
(* ===================================================================== *)

#[local] Set Warnings "-register-all".

(** A parsed JSON document ([response.json()]).  A number keeps its
    literal; an object is its list of members. *)
Inductive json : Type :=
| JNull
| JBool (b : bool)
| JNumber (literal : string)
| JStr (s : string)
| JList (items : list json)
| JDict (members : list (string * json)).

(** An [httpx.Response]: [body_json] is [None] when the body is not JSON
    ([response.json()] raises [JSONDecodeError]). *)
Record response : Type := mk_response {
  status_code : Z;
  response_text : string;
  body_json : option json
}.

(** A [.timeline-item] element, by what its three queries give:
    [find_element(".tweet-content").text],
    [find_element("a.tweet-link").get_attribute("href")] and
    [find_element(".tweet-date a").get_attribute("title")].
    [get_attribute] gives [None] for an attribute that is not there. *)
Record element : Type := mk_element {
  tweet_content : result string;
  tweet_link_href : result (option string);
  tweet_date_title : result (option string)
}.

(** The calls that leave the process. *)
Inductive call : Type :=
| Clock | ChromeStart | DriverGet | FindElements | DriverQuit
| OpenConnection | Post | SendMessage.

Definition call_eqb (a b : call) : bool :=
  match a, b with
  | Clock, Clock | ChromeStart, ChromeStart | DriverGet, DriverGet
  | FindElements, FindElements | DriverQuit, DriverQuit
  | OpenConnection, OpenConnection | Post, Post | SendMessage, SendMessage => true
  | _, _ => false
  end.

(** The surroundings of one run: the two settings read from the process
    environment, and for each kind of call the outcome of its occurrence
    number 0, 1, 2, ... ([None]: the call returns normally). *)
Record environment : Type := mk_environment {
  HF_API_TOKEN : string;
  GROUP_CHAT_ID : string;
  time_now : nat -> N;                       (* microseconds since 1970, UTC *)
  chrome_start : nat -> option exn;          (* webdriver.Chrome(...) *)
  driver_get_outcome : nat -> option exn;    (* driver.get(url) *)
  find_elements_outcome : nat -> result (list element);
  driver_quit_outcome : nat -> option exn;   (* driver.quit() *)
  open_connection_outcome : nat -> option exn; (* open, close, wait_closed *)
  post_outcome : nat -> result response;     (* client.post(...) *)
  send_message_outcome : nat -> option exn   (* bot.send_message(...) *)
}.

Inductive level : Type := DEBUG | INFO | ERROR.

(** What an observer of the process sees, in order. *)
Inductive event : Type :=
| Log (lvl : level) (msg : string)
| EvChromeStart
| EvDriverGet (url : string)
| EvSleep (seconds : Z)
| EvFindElements (selector : string)
| EvDriverQuit
| EvOpenConnection (host : string) (port : Z)
| EvPost (url : string) (authorization : string) (inputs : string) (timeout : Z)
| EvSendMessage (chat_id : string) (text : string).

(** How many calls of each kind were made so far. *)
Definition counters : Type := call -> nat.

Definition made (c : call) (n : counters) : counters :=
  fun c' => if call_eqb c c' then S (n c') else n c'.

Definition fresh : counters := fun _ => O.

(** A run of a computation: its result, the counters after it, and the
    events it produced. *)
Record run (A : Type) : Type := mk_run {
  value : result A;
  after : counters;
  emitted : list event
}.
Arguments mk_run {A} value after emitted.
Arguments value {A} r.
Arguments after {A} r.
Arguments emitted {A} r.

(** A computation reads the environment, which a run does not change, and
    threads the counters. *)
Definition M (A : Type) : Type := environment -> counters -> run A.

Definition ret {A} (a : A) : M A := fun _ n => mk_run (Ret a) n [].

Definition raise {A} (e : exn) : M A := fun _ n => mk_run (Raise e) n [].

Definition bind {A B} (m : M A) (k : A -> M B) : M B :=
  fun E n =>
    let r := m E n in
    match value r with
    | Ret a =>
        let r' := k a E (after r) in
        mk_run (value r') (after r') (emitted r ++ emitted r')%list
    | Raise e => mk_run (Raise e) (after r) (emitted r)
    end.

Declare Scope py_scope.
Delimit Scope py_scope with py.
Notation "x <- m ;; k" := (bind m (fun x => k))
  (at level 61, m at next level, right associativity) : py_scope.
Notation "m ;; k" := (bind m (fun _ => k))
  (at level 61, right associativity) : py_scope.
Local Open Scope py_scope.

(** [try: m  except ... as e: h e]: [h] gives the body of the first
    [except] clause that matches, [None] when none does. *)
Definition try_except {A} (m : M A) (h : exn -> option (M A)) : M A :=
  fun E n =>
    let r := m E n in
    match value r with
    | Ret _ => r
    | Raise e =>
        match h e with
        | Some k =>
            let r' := k E (after r) in
            mk_run (value r') (after r') (emitted r ++ emitted r')%list
        | None => r
        end
    end.

(** [try: m  finally: fin] *)
Definition try_finally {A} (m : M A) (fin : M unit) : M A :=
  fun E n =>
    let r := m E n in
    let r' := fin E (after r) in
    mk_run (match value r' with Ret _ => value r | Raise e => Raise e end)
           (after r') (emitted r ++ emitted r')%list.

(** Runs [m] and hands its result over, exception included, for code that
    goes on after a [try] with what the block had done so far. *)
Definition attempt {A} (m : M A) : M (result A) :=
  fun E n => let r := m E n in mk_run (Ret (value r)) (after r) (emitted r).

(** Conversion unfolds the functions of the program before these
    combinators. *)
Strategy 10 [bind try_except try_finally attempt].

Definition emit (ev : event) : M unit := fun _ n => mk_run (Ret tt) n [ev].

(** [logger.debug], [logger.info], [logger.error] *)
Definition log (lvl : level) (msg : string) : M unit := emit (Log lvl msg).

(** A call of kind [c]: its outcome is read off the environment at the
    number of calls of that kind made so far. *)
Definition asking {A} (c : call) (outcome : environment -> nat -> A) : M A :=
  fun E n => mk_run (Ret (outcome E (n c))) (made c n) [].

(** A setting read from the environment. *)
Definition setting {A} (field : environment -> A) : M A :=
  fun E n => mk_run (Ret (field E)) n [].

Definition may_fail (o : option exn) : M unit :=
  match o with
  | None => ret tt
  | Some e => raise e
  end.

Definition of_result {A} (r : result A) : M A :=
  match r with
  | Ret a => ret a
  | Raise e => raise e
  end.

(** [for x in l: body x] *)
Fixpoint for_each {A} (l : list A) (body : A -> M unit) : M unit :=
  match l with
  | [] => ret tt
  | x :: rest => body x ;; for_each rest body
  end.

(* ===================================================================== *)
(** ** The calls out of the process *)
(* ===================================================================== *)

(** [datetime.now(timezone.utc)] *)
Definition datetime_now_utc : M datetime :=
  t <- asking Clock time_now ;;
  ret (PyDate.of_unix_micros t).

(** [webdriver.Chrome(service=..., options=options)] *)
Definition webdriver_Chrome : M unit :=
  emit EvChromeStart ;;
  o <- asking ChromeStart chrome_start ;;
  may_fail o.

(** [self.driver.get(url)] *)
Definition driver_get (url : string) : M unit :=
  emit (EvDriverGet url) ;;
  o <- asking DriverGet driver_get_outcome ;;
  may_fail o.

(** [time.sleep(s)] and the [asyncio.sleep(s)] of the retry loop *)
Definition sleep (seconds : Z) : M unit := emit (EvSleep seconds).

(** [self.driver.find_elements(By.CSS_SELECTOR, selector)] *)
Definition driver_find_elements (selector : string) : M (list element) :=
  emit (EvFindElements selector) ;;
  r <- asking FindElements find_elements_outcome ;;
  of_result r.

(** [self.driver.quit()] *)
Definition driver_quit : M unit :=
  emit EvDriverQuit ;;
  o <- asking DriverQuit driver_quit_outcome ;;
  may_fail o.

(** [reader, writer = await asyncio.open_connection(host, port)] with the
    [writer.close()] and [await writer.wait_closed()] that follow it. *)
Definition open_and_close_connection (host : string) (port : Z) : M unit :=
  emit (EvOpenConnection host port) ;;
  o <- asking OpenConnection open_connection_outcome ;;
  may_fail o.

(** [await client.post(url, headers=HEADERS, json={...}, timeout=t)]
    inside [async with httpx.AsyncClient() as client].  Of the request,
    the event keeps what varies: the bearer token of [HEADERS] and the
    [inputs] of the body; the content type and the generation parameters
    (10 new tokens, temperature 0.1, no full text) are constants. *)
Definition client_post (url inputs : string) (timeout : Z) : M response :=
  token <- setting HF_API_TOKEN ;;
  emit (EvPost url ("Bearer " ++ token) inputs timeout) ;;
  r <- asking Post post_outcome ;;
  of_result r.

(** [await context.bot.send_message(chat_id, text)] *)
Definition bot_send_message (chat_id text : string) : M unit :=
  emit (EvSendMessage chat_id text) ;;
  o <- asking SendMessage send_message_outcome ;;
  may_fail o.

(* ===================================================================== *)
(** ** Configuration constants *)
(* ===================================================================== *)

Definition HF_API_URL : string :=
  "https://api-inference.huggingface.co/models/meta-llama/Meta-Llama-3-8B-Instruct".

Definition TIMEOUT : Z := 30.

Definition INFLUENCERS : list (string * string) :=
  [ ("justsaurabh1103", "Saurabh Tiwari");
    ("TheDustyBC", "DustyBC Crypto");
    ("Trader_Jibon", "Trader_J");
    ("cryptocevo", "Cevo");
    ("WhalePanda", "WhalePanda");
    ("loomdart", "Loomdart");
    ("KoroushAK", "Koroush AK");
    ("Tradermayne", "Mayne");
    ("AltcoinGordon", "Gordon");
    ("Trader_XO", "XO");
    ("CryptoWizardd", "WIZZ");
    ("MartiniGuyYT",
     "That Martini Guy " ++ PyStr.of_bytes [226; 128; 154; 195; 135; 195; 184]%nat) ].

(* ===================================================================== *)
(** ** [class TwitterScraper] *)
(* ===================================================================== *)

(** The dict appended to [tweets]. *)
Record Tweet : Type := mk_tweet {
  tweet_text : string;        (* 'text' *)
  tweet_id : string;          (* 'id' *)
  tweet_handle : string;      (* 'handle' *)
  tweet_time : datetime       (* 'time' *)
}.

(** [TwitterScraper.__init__] *)
Definition TwitterScraper_init : M unit :=
  try_except
    (webdriver_Chrome ;;
     log INFO "WebDriver initialized")
    (fun e =>
       if isinstance e Exception
       then Some (log ERROR ("WebDriver init failed: " ++ str_exn e) ;; raise e)
       else None).

(** A method call on the value of [get_attribute]: on [None] it is an
    [AttributeError]. *)
Definition method_of (o : option string) (name : string) : M string :=
  match o with
  | Some s => ret s
  | None =>
      raise (Raised AttributeError
               ("'NoneType' object has no attribute '" ++ name ++ "'"))
  end.

(** [l[i]] *)
Definition item (l : list string) (i : nat) : M string :=
  match nth_error l i with
  | Some s => ret s
  | None => raise (Raised IndexError "list index out of range")
  end.

(** The body of the inner [try] for one element (lines 95-112), given the
    list [tweets] as it stands; its value is the list afterwards. *)
Definition extract_tweet (handle : string) (cutoff_time : datetime)
    (tweet : element) (tweets : list Tweet) : M (list Tweet) :=
  content <- of_result (tweet_content tweet) ;;
  href <- of_result (tweet_link_href tweet) ;;
  link <- method_of href "split" ;;
  after_marker <- item (PyStr.split link "/status/") 1 ;;
  tweet_id <- item (PyStr.split after_marker "#") 0 ;;
  title <- of_result (tweet_date_title tweet) ;;
  date_str <- method_of title "replace" ;;
  tweet_time <-
    match Strptime.strptime (PyStr.replace date_str " UTC" "") with
    | Some d => ret (PyDate.replace_tzinfo d (Some timezone_utc))
    | None =>
        raise (Raised ValueError
                 ("time data '" ++ PyStr.replace date_str " UTC" ""
                  ++ "' does not match format"))
    end ;;
  if PyDate.gt tweet_time cutoff_time
  then
    log INFO ("New tweet @" ++ PyDate.isoformat tweet_time) ;;
    ret (tweets ++ [mk_tweet (PyStr.take 500 content) tweet_id handle tweet_time])%list
  else ret tweets.

(** One turn of the [for] loop: the inner [try] with its
    [except (NoSuchElementException, ValueError)]. *)
Definition scrape_entry (handle : string) (cutoff_time : datetime)
    (tweet : element) (tweets : list Tweet) : M (list Tweet) :=
  try_except
    (extract_tweet handle cutoff_time tweet tweets)
    (fun e =>
       if isinstance e NoSuchElementException || isinstance e ValueError
       then Some (log DEBUG ("Skipping tweet: " ++ str_exn e) ;; ret tweets)
       else None).

(** The [for] loop of lines 93-116.  [tweets] is a local list that the loop
    appends to, and it is still there when an exception leaves the loop:
    the value is the list together with that exception, if any. *)
Fixpoint scrape_entries (handle : string) (cutoff_time : datetime)
    (tweet_elements : list element) (tweets : list Tweet)
    : M (list Tweet * option exn) :=
  match tweet_elements with
  | [] => ret (tweets, None)
  | tweet :: rest =>
      r <- attempt (scrape_entry handle cutoff_time tweet tweets) ;;
      match r with
      | Ret tweets' => scrape_entries handle cutoff_time rest tweets'
      | Raise e => ret (tweets, Some e)
      end
  end.

(** Lines 87-90: the page of the account and its [.timeline-item]s. *)
Definition load_timeline (handle : string) : M (list element) :=
  driver_get ("https://nitter.net/" ++ handle) ;;
  sleep 3 ;;
  driver_find_elements ".timeline-item".

(** [TwitterScraper.get_recent_tweets] *)
Definition get_recent_tweets (handle : string) : M (list Tweet) :=
  log INFO ("Scraping @" ++ handle) ;;
  now <- datetime_now_utc ;;
  let cutoff_time := PyDate.sub now (PyDate.timedelta_hours 1) in
  page <- attempt (load_timeline handle) ;;
  outcome <-
    match page with
    | Ret found =>
        let tweet_elements := firstn 5 found in
        log DEBUG ("Found " ++ PyStr.of_nat (List.length tweet_elements) ++ " tweets") ;;
        scrape_entries handle cutoff_time tweet_elements []
    | Raise e => ret ([], Some e)
    end ;;
  match snd outcome with
  | Some e =>
      if isinstance e Exception
      then log ERROR ("Scraping error: " ++ str_exn e)
      else raise e
  | None => ret tt
  end ;;
  log INFO ("Found " ++ PyStr.of_nat (List.length (fst outcome)) ++ " valid tweets") ;;
  ret (fst outcome).

(** [TwitterScraper.close] *)
Definition close : M unit :=
  try_except
    (driver_quit ;;
     log DEBUG "WebDriver closed")
    (fun e =>
       if isinstance e Exception
       then Some (log ERROR ("Close error: " ++ str_exn e))
       else None).

(* ===================================================================== *)
(** ** The classifier *)
(* ===================================================================== *)

(** [check_network_connection] *)
Definition check_network_connection : M bool :=
  try_except
    (open_and_close_connection "api-inference.huggingface.co" 443 ;;
     ret true)
    (fun e =>
       if isinstance e gaierror || isinstance e OSError
       then Some (log ERROR ("Network error: " ++ str_exn e) ;; ret false)
       else None).

(** [create_prompt] *)
Definition create_prompt (text : string) : string :=
  "<|begin_of_text|>"
  ++ "<|start_header_id|>system<|end_header_id|>"
  ++ "Analyze if this tweet explicitly recommends buying cryptocurrency. "
  ++ "Respond ONLY with 'YES' or 'NO'.<|eot_id|>"
  ++ "<|start_header_id|>user<|end_header_id|>"
  ++ PyStr.take 500 text ++ "<|eot_id|>"
  ++ "<|start_header_id|>assistant<|end_header_id|>".

(** [response.json()] *)
Definition response_json (r : response) : M json :=
  match body_json r with
  | Some v => ret v
  | None => raise (Raised JSONDecodeError "Expecting value: line 1 column 1 (char 0)")
  end.

Fixpoint lookup (key : string) (members : list (string * json)) : option json :=
  match members with
  | [] => None
  | (k, v) :: rest => if String.eqb k key then Some v else lookup key rest
  end.

Definition type_name (v : json) : string :=
  match v with
  | JNull => "NoneType" | JBool _ => "bool" | JNumber _ => "int"
  | JStr _ => "str" | JList _ => "list" | JDict _ => "dict"
  end.

Definition no_attribute {A} (v : json) (name : string) : M A :=
  raise (Raised AttributeError
           ("'" ++ type_name v ++ "' object has no attribute '" ++ name ++ "'")).

(** [v.get(key, default)]: only a dict has the method. *)
Definition dict_get (v : json) (key : string) (default : json) : M json :=
  match v with
  | JDict members =>
      ret (match lookup key members with Some x => x | None => default end)
  | _ => no_attribute v "get"
  end.

(** [v.strip().upper()]: only a str has the methods. *)
Definition strip_upper (v : json) : M string :=
  match v with
  | JStr s => ret (PyStr.upper (PyStr.strip s))
  | _ => no_attribute v "strip"
  end.

(** Lines 177-193: what [is_buy_signal] makes of the response. *)
Definition read_response (r : response) : M bool :=
  if status_code r =? 200
  then
    result <- response_json r ;;
    match result with
    | JList (first :: _) =>
        generated <- dict_get first "generated_text" (JStr "") ;;
        answer <- strip_upper generated ;;
        log INFO ("API response: " ++ answer) ;;
        ret (String.eqb answer "YES")
    | _ =>
        log ERROR "Invalid API response" ;;
        ret false
    end
  else
    log ERROR ("API error " ++ PyStr.of_Z (status_code r) ++ ": "
               ++ PyStr.take 200 (response_text r)) ;;
    (if status_code r =? 401 then log ERROR "Invalid API token"
     else if status_code r =? 404 then log ERROR "Model not found"
     else ret tt) ;;
    ret false.

(** The [try] block of lines 162-193: the request and the reading of its
    response. *)
Definition request_and_read (text : string) : M bool :=
  r <- client_post HF_API_URL (create_prompt text) TIMEOUT ;;
  read_response r.

(** The function under the decorator ([is_buy_signal.__wrapped__]). *)
Definition is_buy_signal_wrapped (text : string) : M bool :=
  reachable <- check_network_connection ;;
  if negb reachable then ret false
  else
    try_except
      (request_and_read text)
      (fun e =>
         if isinstance e RequestError
         then Some (log ERROR ("Connection error: " ++ str_exn e) ;; raise e)
         else if isinstance e Exception
         then Some (log ERROR ("Analysis error: " ++ str_exn e) ;; ret false)
         else None).

(** *** tenacity's [retry] *)

(** [wait_exponential(multiplier, min, max)] at an attempt number:
    [max(max(0, min), min(multiplier * 2 ** (attempt - 1), max))]. *)
Definition wait_exponential (multiplier min max : Z) (attempt_number : nat) : Z :=
  Z.max (Z.max 0 min) (Z.min (multiplier * 2 ^ (Z.of_nat attempt_number - 1)) max).

(** [retry_if_exception_type(types)] *)
Definition retry_if_exception_type (types : list exn_class) (e : exn) : bool :=
  existsb (isinstance e) types.

(** The loop of [retry(stop=stop_after_attempt(n), wait=..., retry=...)]
    from attempt [attempt_number] on, with [remaining] attempts allowed
    after it.  An exception the predicate rejects leaves at once, as it
    is.  One it accepts is followed by a sleep and another attempt, or,
    when the attempts are used up, by [RetryError] raised from it
    ([reraise] is not set). *)
Fixpoint retry_from {A} (remaining attempt_number : nat) (wait : nat -> Z)
    (retry_on : exn -> bool) (fn : M A) : M A :=
  r <- attempt fn ;;
  match r with
  | Ret a => ret a
  | Raise e =>
      if retry_on e
      then
        match remaining with
        | O => raise (RetryError e)
        | S k =>
            sleep (wait attempt_number) ;;
            retry_from k (S attempt_number) wait retry_on fn
        end
      else raise e
  end.

Definition retry {A} (stop_after_attempt : nat) (wait : nat -> Z)
    (retry_on : exn -> bool) (fn : M A) : M A :=
  retry_from (stop_after_attempt - 1) 1 wait retry_on fn.

Definition is_buy_signal_wait : nat -> Z := wait_exponential 1 2 15.

Definition is_buy_signal_retry_on : exn -> bool :=
  retry_if_exception_type [ConnectError; TimeoutException].

(** [is_buy_signal], as the module binds the name: the decorated function. *)
Definition is_buy_signal (text : string) : M bool :=
  retry 2 is_buy_signal_wait is_buy_signal_retry_on (is_buy_signal_wrapped text).

(* ===================================================================== *)
(** ** The cycle *)
(* ===================================================================== *)

Definition alert_marker : string := PyStr.of_bytes [239; 163; 191; 195; 188; 195; 182; 194; 174]%nat.
Definition date_marker : string := PyStr.of_bytes [239; 163; 191; 195; 188; 195; 172; 195; 150]%nat.
Definition text_marker : string := PyStr.of_bytes [239; 163; 191; 195; 188; 195; 172; 195; 185]%nat.
Definition link_marker : string := PyStr.of_bytes [239; 163; 191; 195; 188; 195; 174; 195; 179]%nat.

Definition newline : string := String (ascii_of_nat 10) "".

(** The f-string of lines 225-230. *)
Definition alert_message (handle name : string) (tweet : Tweet) : string :=
  alert_marker ++ " BUY ALERT from " ++ name ++ newline
  ++ date_marker ++ " " ++ PyDate.strftime_alert (tweet_time tweet) ++ newline
  ++ text_marker ++ " " ++ PyStr.take 200 (tweet_text tweet) ++ "..." ++ newline
  ++ link_marker ++ " https://twitter.com/" ++ handle ++ "/status/" ++ tweet_id tweet.

Definition str_bool (b : bool) : string := if b then "True" else "False".

(** The inner [try] of lines 221-232. *)
Definition classify_and_alert (handle name : string) (tweet : Tweet) : M unit :=
  is_buy <- is_buy_signal (tweet_text tweet) ;;
  log INFO ("Buy signal: " ++ str_bool is_buy) ;;
  if is_buy
  then
    chat <- setting GROUP_CHAT_ID ;;
    bot_send_message chat (alert_message handle name tweet) ;;
    log INFO "Alert sent"
  else ret tt.

(** One turn of [for tweet in tweets] (lines 219-234). *)
Definition process_tweet (handle name : string) (tweet : Tweet) : M unit :=
  log INFO ("Tweet @" ++ PyDate.isoformat (tweet_time tweet)) ;;
  try_except
    (classify_and_alert handle name tweet)
    (fun e =>
       if isinstance e Exception
       then Some (log ERROR ("Processing error: " ++ str_exn e))
       else None).

(** One turn of [for handle, name in INFLUENCERS] (lines 210-234). *)
Definition check_account (account : string * string) : M unit :=
  let (handle, name) := account in
  log INFO ("Checking " ++ name) ;;
  tweets <- get_recent_tweets handle ;;
  match tweets with
  | [] => log DEBUG "No recent tweets"
  | _ =>
      log INFO ("Analyzing " ++ PyStr.of_nat (List.length tweets) ++ " tweets") ;;
      for_each tweets (process_tweet handle name)
  end.

(** The [try] / [except Exception] / [finally] of lines 209-240 around a
    body. *)
Definition guarded_cycle (body : M unit) : M unit :=
  try_finally
    (try_except body
       (fun e =>
          if isinstance e Exception
          then Some (log ERROR ("Cycle error: " ++ str_exn e))
          else None))
    (close ;;
     log INFO "Monitoring complete").

(** [check_influencers] *)
Definition check_influencers : M unit :=
  log INFO "Starting monitoring cycle" ;;
  TwitterScraper_init ;;
  guarded_cycle (for_each INFLUENCERS check_account).

(* ===================================================================== *)
(** ** Startup *)
(* ===================================================================== *)

(** [main] runs once, before any cycle and outside the scheduler.  What it
    does outside the process, in order: *)
Inductive startup_event : Type :=
| StLog (lvl : level) (msg : string)
| StBuild (token : option string)       (* ApplicationBuilder().token(...).build() *)
| StAddErrorHandler                     (* app.add_error_handler(error_handler) *)
| StRunRepeating (interval first : Z)   (* app.job_queue.run_repeating(check_influencers, ...) *)
| StRunPolling.                         (* app.run_polling() *)

(** The surroundings of [main]: the process environment that [os.getenv]
    reads, the same at line 37 and at line 244, and the outcome of each of
    the four calls into the library ([None]: the call returns). *)
Record startup : Type := mk_startup {
  getenv : string -> option string;
  build_outcome : option exn;
  add_error_handler_outcome : option exn;
  run_repeating_outcome : option exn;
  run_polling_outcome : option exn
}.

(** [error_handler]: the line it logs for the error of the context. *)
Definition error_handler (error : exn) : list startup_event :=
  [StLog ERROR ("Telegram error: " ++ str_exn error)].

(** The statements of a block, each with the outcome of its call: they
    run in turn, and the first exception ends the block. *)
Fixpoint run_block (calls : list (startup_event * option exn))
    : result unit * list startup_event :=
  match calls with
  | [] => (Ret tt, [])
  | (ev, outcome) :: rest =>
      match outcome with
      | Some e => (Raise e, [ev])
      | None => let (v, evs) := run_block rest in (v, ev :: evs)
      end
  end.

Definition required_vars : list string :=
  ["TELEGRAM_BOT_TOKEN"; "HF_API_TOKEN"; "GROUP_CHAT_ID"].

(** [not os.getenv(var)]: true of a variable that is not set and of one
    set to the empty string. *)
Definition is_missing (st : startup) (var : string) : bool :=
  match getenv st var with
  | Some v => PyStr.is_empty v
  | None => true
  end.

(** [main] *)
Definition main (st : startup) : result unit * list startup_event :=
  let missing_vars := filter (is_missing st) required_vars in
  match missing_vars with
  | _ :: _ => (Ret tt, [StLog ERROR ("Missing: " ++ String.concat ", " missing_vars)])
  | [] =>
      let (v, evs) :=
        run_block
          [(StBuild (getenv st "TELEGRAM_BOT_TOKEN"), build_outcome st);
           (StAddErrorHandler, add_error_handler_outcome st);
           (StRunRepeating 3600 10, run_repeating_outcome st);
           (StLog INFO "Bot started", None);
           (StRunPolling, run_polling_outcome st)] in
      match v with
      | Ret _ => (Ret tt, evs)
      | Raise e =>
          if isinstance e Exception
          then (Ret tt, (evs ++ [StLog ERROR ("Startup failed: " ++ str_exn e)])%list)
          else (Raise e, evs)
      end
  end.

(* ===================================================================== *)
(** * The vocabulary of the properties *)
(* ===================================================================== *)

(** ** Kinds of events *)

Definition is_quit (ev : event) : bool :=
  match ev with EvDriverQuit => true | _ => false end.

Definition is_send (ev : event) : bool :=
  match ev with EvSendMessage _ _ => true | _ => false end.

Definition is_post (ev : event) : bool :=
  match ev with EvPost _ _ _ _ => true | _ => false end.

Definition is_probe (ev : event) : bool :=
  match ev with EvOpenConnection _ _ => true | _ => false end.

Definition is_error_log (ev : event) : bool :=
  match ev with Log ERROR _ => true | _ => false end.

(** How many events of a kind a run produced. *)
Definition count (p : event -> bool) (l : list event) : nat :=
  List.length (filter p l).

(** The messages sent, with their destinations, in order. *)
Definition sent (l : list event) : list (string * string) :=
  flat_map (fun ev => match ev with EvSendMessage c t => [(c, t)] | _ => [] end) l.

(** ** Two properties of computations *)

(** [m] produces no event of the kind [p]. *)
Definition quiet (p : event -> bool) {A} (m : M A) : Prop :=
  forall E n, filter p (emitted (m E n)) = [].

(** The events that a scrape does not produce. *)
Definition other_than_scraping (ev : event) : bool :=
  match ev with
  | Log _ _ | EvDriverGet _ | EvSleep _ | EvFindElements _ => false
  | _ => true
  end.

(** The events that a classification does not produce. *)
Definition other_than_classifying (ev : event) : bool :=
  match ev with
  | Log _ _ | EvOpenConnection _ _ | EvPost _ _ _ _ | EvSleep _ => false
  | _ => true
  end.

(** [m] never raises. *)
Definition safe {A} (m : M A) : Prop :=
  forall E n, exists a, value (m E n) = Ret a.

(** ** The classifier's events and answers *)

Definition probe_event : event := EvOpenConnection "api-inference.huggingface.co" 443.

Definition post_event (E : environment) (text : string) : event :=
  EvPost HF_API_URL ("Bearer " ++ HF_API_TOKEN E) (create_prompt text) TIMEOUT.

(** The string the claim calls the first element's generated text: the
    member [generated_text] of an object, the empty string when the object
    has no such member; [None] when the element is not an object or the
    member is not a string. *)
Definition generated_text (first : json) : option string :=
  match first with
  | JDict members =>
      match lookup "generated_text" members with
      | Some (JStr s) => Some s
      | Some _ => None
      | None => Some ""%string
      end
  | _ => None
  end.

(** [s.strip().upper() == 'YES'] *)
Definition is_yes (s : string) : bool :=
  String.eqb (PyStr.upper (PyStr.strip s)) "YES".

(** ** Sample surroundings *)

(** 2023-11-14 22:13:20 UTC. *)
Definition sample_now : N := 1700000000000000%N.

Definition sample_environment (page : result (list element))
    (chrome : option exn) (probe : nat -> option exn)
    (posts : nat -> result response) : environment :=
  mk_environment "hf_token" "-1001" (fun _ => sample_now)
    (fun _ => chrome) (fun _ => None) (fun _ => page) (fun _ => None)
    probe posts (fun _ => None).

(** A 200 response whose body is [[{"generated_text": body}]]. *)
Definition answer (body : string) : response :=
  mk_response 200 "" (Some (JList [JDict [("generated_text"%string, JStr body)]])).

Definition connect_failure : exn := Raised ConnectError "All connection attempts failed".
Definition read_failure : exn := Raised ReadError "Connection reset by peer".
Definition name_failure : exn := Raised gaierror "[Errno -2] Name or service not known".
Definition chrome_failure : exn := Raised WebDriverException "unable to obtain driver for chrome".

(** The endpoint answers every request with [body]; the page is empty. *)
Definition E_answers (body : string) : environment :=
  sample_environment (Ret []) None (fun _ => None) (fun _ => Ret (answer body)).

(** The name of the endpoint's host does not resolve. *)
Definition E_unreachable : environment :=
  sample_environment (Ret []) None (fun _ => Some name_failure) (fun _ => Ret (answer "YES")).

(** Every request ends in a connect failure. *)
Definition E_connect_down : environment :=
  sample_environment (Ret []) None (fun _ => None) (fun _ => Raise connect_failure).

(** Every request ends in a read error. *)
Definition E_read_error : environment :=
  sample_environment (Ret []) None (fun _ => None) (fun _ => Raise read_failure).

(** ** One entry of a page *)

(** The cutoff of a scrape that starts with the counters at [n]. *)
Abbreviation cutoff_at E n :=
  (PyDate.sub (PyDate.of_unix_micros (time_now E (n Clock))) (PyDate.timedelta_hours 1)).

(** What [l[1]] raises on a list of one item. *)
Definition index_error : exn := Raised IndexError "list index out of range".

(** What the inner [try] block makes of one element: a tweet to append,
    nothing to append, or an exception. *)
Definition entry_outcome (handle : string) (cutoff_time : datetime) (el : element)
    : result (option Tweet) :=
  match tweet_content el with
  | Raise e => Raise e
  | Ret content =>
  match tweet_link_href el with
  | Raise e => Raise e
  | Ret None => Raise (Raised AttributeError "'NoneType' object has no attribute 'split'")
  | Ret (Some link) =>
  match nth_error (PyStr.split link "/status/") 1 with
  | None => Raise index_error
  | Some after_marker =>
  match nth_error (PyStr.split after_marker "#") 0 with
  | None => Raise index_error
  | Some id =>
  match tweet_date_title el with
  | Raise e => Raise e
  | Ret None => Raise (Raised AttributeError "'NoneType' object has no attribute 'replace'")
  | Ret (Some date_str) =>
  match Strptime.strptime (PyStr.replace date_str " UTC" "") with
  | None =>
      Raise (Raised ValueError
               ("time data '" ++ PyStr.replace date_str " UTC" ""
                ++ "' does not match format"))
  | Some d =>
      let t := PyDate.replace_tzinfo d (Some timezone_utc) in
      if PyDate.gt t cutoff_time
      then Ret (Some (mk_tweet (PyStr.take 500 content) id handle t))
      else Ret None
  end end end end end end.

(** The exceptions the handler of one entry takes. *)
Definition skips (e : exn) : bool :=
  isinstance e NoSuchElementException || isinstance e ValueError.

(** What a retained tweet satisfies. *)
Definition retained (handle : string) (cutoff_time : datetime) (t : Tweet) : Prop :=
  (String.length (tweet_text t) <= 500)%nat
  /\ dt_tzinfo (tweet_time t) = Some timezone_utc
  /\ PyDate.gt (tweet_time t) cutoff_time = true
  /\ tweet_handle t = handle.

(** ** Sample pages *)

Definition sample_entry (text link title : string) : element :=
  mk_element (Ret text) (Ret (Some link)) (Ret (Some title)).

(** Posted at 22:[minutes] on 2023-11-14; a scrape at [sample_now] has its
    cutoff at 21:13:20. *)
Definition posted_at_22 (minutes : string) : string :=
  "Nov 14, 2023 " ++ Strptime.separator ++ " 10:" ++ minutes ++ " PM UTC".

Definition entry_1 : element :=
  sample_entry "Buy $XYZ now!!" "https://nitter.net/alice/status/101#m" (posted_at_22 "08").

Definition entry_2 : element :=
  sample_entry "GM frens, $ABC looks ready" "https://nitter.net/alice/status/102#m"
    (posted_at_22 "10").

Definition entry_without_status : element :=
  sample_entry "Pinned" "https://nitter.net/alice/i/103" (posted_at_22 "11").

Definition entry_4 : element :=
  sample_entry "Later" "https://nitter.net/alice/status/104#m" (posted_at_22 "12").

Definition tweet_at (text id handle : string) (mins : Z) : Tweet :=
  mk_tweet text id handle (mk_datetime 2023 11 14 22 mins 0 0 (Some timezone_utc)).

(** A page whose third entry links to no status. *)
Definition E_bad_permalink : environment :=
  sample_environment (Ret [entry_1; entry_2; entry_without_status; entry_4]) None
    (fun _ => None) (fun _ => Ret (answer "NO")).

(** ** Alerts *)

(** [part] occurs in [whole]. *)
Definition occurs (part whole : string) : Prop :=
  exists a b, whole = (a ++ part ++ b)%string.

Definition sample_tweet : Tweet := tweet_at "Buy $XYZ now!!" "101" "alice" 8.

(** Two tweets on the page; the first request ends in a read error, the
    second is answered YES. *)
Definition E_two_items : environment :=
  sample_environment (Ret [entry_1; entry_2]) None (fun _ => None)
    (fun k => match k with O => Raise read_failure | _ => Ret (answer "YES") end).

(** One tweet on the page, five minutes old; the endpoint answers YES. *)
Definition E_one_item : environment :=
  sample_environment (Ret [entry_1]) None (fun _ => None) (fun _ => Ret (answer "YES")).

(** Chrome does not start. *)
Definition E_no_chrome : environment :=
  sample_environment (Ret []) (Some chrome_failure) (fun _ => None)
    (fun _ => Ret (answer "NO")).

(** ** What a page gives *)

(** The tweets of a list of entries, in the order of the page, up to the
    first entry that raises something the handler of one entry does not
    take; with that exception, if any. *)
Fixpoint collected (handle : string) (cutoff_time : datetime) (els : list element)
    : list Tweet * option exn :=
  match els with
  | [] => ([], None)
  | el :: rest =>
      match entry_outcome handle cutoff_time el with
      | Ret (Some t) =>
          (t :: fst (collected handle cutoff_time rest),
           snd (collected handle cutoff_time rest))
      | Ret None => collected handle cutoff_time rest
      | Raise e => if skips e then collected handle cutoff_time rest else ([], Some e)
      end
  end.

(** An entry that adds nothing and stops nothing: it is too old, or it
    raises what the handler of one entry takes. *)
Definition passed_over (handle : string) (cutoff_time : datetime) (el : element) : Prop :=
  entry_outcome handle cutoff_time el = Ret None
  \/ exists e, entry_outcome handle cutoff_time el = Raise e /\ skips e = true.

(** An entry whose content element is missing. *)
Definition entry_without_content : element :=
  mk_element (Raise (Raised NoSuchElementException "no such element: .tweet-content"))
    (Ret (Some "https://nitter.net/alice/status/105#m"%string))
    (Ret (Some (posted_at_22 "09"))).

(** ** Blank strings *)


(** ** A response that says YES *)

(** Status 200, a non-empty list, and in its first element a generated
    text that is YES once stripped and put in capitals. *)
Definition says_yes (r : response) : Prop :=
  status_code r = 200
  /\ exists first rest s,
       body_json r = Some (JList (first :: rest))
       /\ generated_text first = Some s
       /\ is_yes s = true.

(** ** What a computation may emit *)

(** Every event of [m], run in the environment [E], satisfies [P]. *)
Definition emits_only (E : environment) (P : event -> Prop) {A} (m : M A) : Prop :=
  forall n, Forall P (emitted (m E n)).

Definition is_not_log (ev : event) : bool :=
  match ev with Log _ _ => false | _ => true end.

(** The events of a classification of [text]. *)
Definition of_a_classification (E : environment) (text : string) (ev : event) : Prop :=
  match ev with
  | Log _ _ => True
  | EvOpenConnection _ _ => ev = probe_event
  | EvPost _ _ _ _ => ev = post_event E text
  | EvSleep seconds => seconds = 2
  | _ => False
  end.

(** The events of the scrape of the account [handle]. *)
Definition of_a_scrape (handle : string) (ev : event) : Prop :=
  match ev with
  | Log _ _ => True
  | EvDriverGet url => url = "https://nitter.net/" ++ handle
  | EvSleep seconds => seconds = 3
  | EvFindElements selector => selector = ".timeline-item"
  | _ => False
  end.

(** A message is the alert for a tweet of a listed account, sent to the
    group chat, and the endpoint has answered YES to some request. *)
Definition alert_of (E : environment) (handle name chat_id text : string) : Prop :=
  chat_id = GROUP_CHAT_ID E
  /\ (exists t,
        text = alert_message handle name t
        /\ tweet_handle t = handle
        /\ (String.length (tweet_text t) <= 500)%nat)
  /\ exists k r, post_outcome E k = Ret r /\ says_yes r.

(** The events of the turn of the account [(handle, name)]. *)
Definition of_an_account (E : environment) (handle name : string) (ev : event) : Prop :=
  match ev with
  | Log _ _ => True
  | EvDriverGet url => url = "https://nitter.net/" ++ handle
  | EvSleep seconds => seconds = 3 \/ seconds = 2
  | EvFindElements selector => selector = ".timeline-item"
  | EvOpenConnection _ _ => ev = probe_event
  | EvPost _ _ _ _ =>
      exists text, ev = post_event E text /\ (String.length text <= 500)%nat
  | EvSendMessage chat_id text => alert_of E handle name chat_id text
  | EvChromeStart | EvDriverQuit => False
  end.

(** The events of a cycle. *)
Definition of_a_cycle (E : environment) (ev : event) : Prop :=
  match ev with
  | Log _ _ | EvChromeStart | EvDriverQuit => True
  | _ => exists handle name, In (handle, name) INFLUENCERS /\ of_an_account E handle name ev
  end.

(** ** Counting and listing *)

(** [m] produces at most [b] events of the kind [p]. *)
Definition at_most (p : event -> bool) (b : nat) {A} (m : M A) : Prop :=
  forall E n, (count p (emitted (m E n)) <= b)%nat.

Definition is_get (ev : event) : bool :=
  match ev with EvDriverGet _ => true | _ => false end.

(** The pages loaded, in order. *)
Definition loaded (l : list event) : list string :=
  flat_map (fun ev => match ev with EvDriverGet url => [url] | _ => [] end) l.

(** ** Startup *)

Definition is_startup_log (ev : startup_event) : bool :=
  match ev with StLog _ _ => true | _ => false end.

(** The three settings are there, the token is accepted and the job queue
    exists; polling ends when the process is told to stop. *)
Definition sample_startup : startup :=
  mk_startup
    (fun var =>
       if String.eqb var "TELEGRAM_BOT_TOKEN" then Some "12345:token"
       else if String.eqb var "HF_API_TOKEN" then Some "hf_token"
       else if String.eqb var "GROUP_CHAT_ID" then Some "-1001"
       else None)
    None None None None.

(** [HF_API_TOKEN] is set to the empty string and [GROUP_CHAT_ID] is not
    set. *)
Definition startup_without_settings : startup :=
  mk_startup
    (fun var =>
       if String.eqb var "TELEGRAM_BOT_TOKEN" then Some "12345:token"
       else if String.eqb var "HF_API_TOKEN" then Some ""
       else None)
    None None None None.

(* ===================================================================== *)
(** * Properties *)
(* ===================================================================== *)

(** ** Exceptions and strings *)

Lemma isinstance_Exception (e : exn) : isinstance e Exception = true.
Proof. destruct e as [c m | last]; [destruct c |]; reflexivity. Qed.

Lemma length_take (k : nat) (s : string) : (String.length (PyStr.take k s) <= k)%nat.
Proof.
  revert s; induction k as [| k IH]; intros [| c r]; simpl; try lia.
  specialize (IH r); lia.
Qed.

Lemma append_assoc (a b c : string) : ((a ++ b) ++ c = a ++ (b ++ c))%string.
Proof. induction a as [| x a IH]; simpl; [reflexivity | now rewrite IH]. Qed.

Lemma append_empty_r (a : string) : (a ++ "" = a)%string.
Proof. induction a as [| x a IH]; simpl; [reflexivity | now rewrite IH]. Qed.

(** A string without the separator splits into itself alone. *)
Lemma split_from_absent (sep s cur : string) :
  PyStr.contains sep s = false ->
  PyStr.split_from sep s 0 cur = [(cur ++ s)%string].
Proof.
  revert cur; induction s as [| c r IH]; intros cur H.
  - simpl. now rewrite append_empty_r.
  - simpl in H. apply orb_false_iff in H as [Hs Hr].
    cbn [PyStr.split_from]. rewrite Hs, (IH _ Hr), append_assoc. reflexivity.
Qed.

Lemma split_absent (sep s : string) :
  PyStr.contains sep s = false -> PyStr.split s sep = [s].
Proof. intros H. unfold PyStr.split. now rewrite split_from_absent. Qed.

(** [contains] is the substring relation. *)
Lemma startswith_spec (p s : string) :
  PyStr.startswith p s = true <-> exists t, s = (p ++ t)%string.
Proof.
  revert s; induction p as [| a p IH]; intros s; simpl.
  - split; [intros _; now exists s | reflexivity].
  - destruct s as [| b s].
    + split; [discriminate | intros [t Ht]; discriminate].
    + rewrite andb_true_iff, IH. split.
      * intros [Hab [t ->]]. apply Ascii.eqb_eq in Hab as ->. now exists t.
      * intros [t Ht]. injection Ht as -> ->. split; [apply Ascii.eqb_refl | now exists t].
Qed.

Lemma contains_spec (sub s : string) :
  PyStr.contains sub s = true <-> exists a b, s = (a ++ sub ++ b)%string.
Proof.
  induction s as [| c r IH].
  - simpl. rewrite orb_false_r, startswith_spec. split.
    + intros [t Ht]. now exists ""%string, t.
    + intros [a [b Hab]]. destruct a; simpl in Hab; [now exists b | discriminate].
  - cbn [PyStr.contains]. rewrite orb_true_iff, startswith_spec, IH. split.
    + intros [[t Ht] | [a [b Hab]]].
      * now exists ""%string, t.
      * exists (String c a), b. simpl. now rewrite Hab.
    + intros [a [b Hab]]. destruct a as [| x a]; simpl in Hab.
      * left. now exists b.
      * right. injection Hab as -> ->. now exists a, b.
Qed.

(** ** Equations of the monad *)

Lemma run_eta {A} (r : run A) : mk_run (value r) (after r) (emitted r) = r.
Proof. now destruct r. Qed.

Lemma bind_ret {A B} (a : A) (k : A -> M B) E n : bind (ret a) k E n = k a E n.
Proof. unfold bind. simpl. apply run_eta. Qed.

Lemma bind_raise {A B} (e : exn) (k : A -> M B) E n :
  bind (raise e) k E n = mk_run (Raise e) n [].
Proof. reflexivity. Qed.

Lemma bind_emit {B} (ev : event) (k : unit -> M B) E n :
  bind (emit ev) k E n
  = mk_run (value (k tt E n)) (after (k tt E n)) (ev :: emitted (k tt E n)).
Proof. reflexivity. Qed.

Lemma bind_asking {A B} c (f : environment -> nat -> A) (k : A -> M B) E n :
  bind (asking c f) k E n = k (f E (n c)) E (made c n).
Proof. unfold bind. simpl. apply run_eta. Qed.

Lemma bind_setting {A B} (f : environment -> A) (k : A -> M B) E n :
  bind (setting f) k E n = k (f E) E n.
Proof. unfold bind. simpl. apply run_eta. Qed.

Lemma bind_attempt {A B} (m : M A) (k : result A -> M B) E n :
  bind (attempt m) k E n
  = mk_run (value (k (value (m E n)) E (after (m E n))))
           (after (k (value (m E n)) E (after (m E n))))
           (emitted (m E n) ++ emitted (k (value (m E n)) E (after (m E n))))%list.
Proof. reflexivity. Qed.

Lemma run_cons {A} (r : run A) ev v a l :
  r = mk_run v a l ->
  mk_run (value r) (after r) (ev :: emitted r) = mk_run v a (ev :: l).
Proof. now intros ->. Qed.

Lemma run_app {A} (r : run A) l0 v a l :
  r = mk_run v a l ->
  mk_run (value r) (after r) (l0 ++ emitted r)%list = mk_run v a (l0 ++ l)%list.
Proof. now intros ->. Qed.

Lemma bind_assoc {A B C} (m : M A) (k : A -> M B) (h : B -> M C) E n :
  bind (bind m k) h E n = bind m (fun a => bind (k a) h) E n.
Proof.
  unfold bind. destruct (value (m E n)) as [a | e]; cbn [value after emitted]; [| reflexivity].
  destruct (value (k a E (after (m E n)))) as [b | e]; cbn [value after emitted];
    [| reflexivity].
  now rewrite app_assoc.
Qed.

(** ** Events of a run *)

Lemma count_app p (a b : list event) : count p (a ++ b)%list = (count p a + count p b)%nat.
Proof. unfold count. now rewrite filter_app, length_app. Qed.

Lemma sent_app (a b : list event) : sent (a ++ b)%list = (sent a ++ sent b)%list.
Proof. unfold sent. now rewrite flat_map_app. Qed.

(** ** Computations that produce no event of a kind *)

Section Quiet.

Variable p : event -> bool.

Lemma quiet_ret {A} (a : A) : quiet p (ret a).
Proof. intros E n; reflexivity. Qed.

Lemma quiet_raise {A} (e : exn) : quiet p (@raise A e).
Proof. intros E n; reflexivity. Qed.

Lemma quiet_emit (ev : event) : p ev = false -> quiet p (emit ev).
Proof. intros H E n; simpl. now rewrite H. Qed.

Lemma quiet_asking {A} c (f : environment -> nat -> A) : quiet p (asking c f).
Proof. intros E n; reflexivity. Qed.

Lemma quiet_setting {A} (f : environment -> A) : quiet p (setting f).
Proof. intros E n; reflexivity. Qed.

Lemma quiet_bind {A B} (m : M A) (k : A -> M B) :
  quiet p m -> (forall a, quiet p (k a)) -> quiet p (bind m k).
Proof.
  intros Hm Hk E n. unfold bind. specialize (Hm E n).
  destruct (value (m E n)) as [a | e]; simpl; [| exact Hm].
  now rewrite filter_app, Hm, (Hk a).
Qed.

Lemma quiet_try_except {A} (m : M A) h :
  quiet p m -> (forall e k, h e = Some k -> quiet p k) -> quiet p (try_except m h).
Proof.
  intros Hm Hh E n. unfold try_except. specialize (Hm E n).
  destruct (value (m E n)) as [a | e]; [exact Hm |].
  destruct (h e) as [k |] eqn:Hk; [| exact Hm].
  simpl. now rewrite filter_app, Hm, (Hh e k Hk).
Qed.

Lemma quiet_attempt {A} (m : M A) : quiet p m -> quiet p (attempt m).
Proof. intros Hm E n. exact (Hm E n). Qed.

Lemma quiet_may_fail o : quiet p (may_fail o).
Proof. destruct o; [apply quiet_raise | apply quiet_ret]. Qed.

Lemma quiet_of_result {A} (r : result A) : quiet p (of_result r).
Proof. destruct r; [apply quiet_ret | apply quiet_raise]. Qed.

Lemma quiet_for_each {A} (l : list A) (body : A -> M unit) :
  (forall x, quiet p (body x)) -> quiet p (for_each l body).
Proof.
  intros Hb. induction l as [| x l IH]; simpl.
  - apply quiet_ret.
  - apply quiet_bind; [apply Hb | intros _; exact IH].
Qed.

Lemma quiet_retry_from {A} remaining k wait retry_on (fn : M A) :
  (forall s, p (EvSleep s) = false) -> quiet p fn ->
  quiet p (retry_from remaining k wait retry_on fn).
Proof.
  intros Hs Hfn. revert k. induction remaining as [| r IH]; intros k; simpl;
    (apply quiet_bind; [now apply quiet_attempt |]);
    intros [a | e]; try apply quiet_ret;
    destruct (retry_on e); try apply quiet_raise.
  apply quiet_bind; [apply quiet_emit, Hs | intros _; apply IH].
Qed.

End Quiet.

Lemma quiet_weaken (p q : event -> bool) {A} (m : M A) :
  (forall ev, q ev = true -> p ev = true) -> quiet p m -> quiet q m.
Proof.
  intros Hpq Hm E n. specialize (Hm E n).
  induction (emitted (m E n)) as [| ev l IH]; [reflexivity |].
  simpl in *. destruct (q ev) eqn:Hq.
  - rewrite (Hpq ev Hq) in Hm. discriminate.
  - destruct (p ev); [discriminate | auto].
Qed.

Lemma quiet_count (p : event -> bool) {A} (m : M A) E n :
  quiet p m -> count p (emitted (m E n)) = O.
Proof. intros H. unfold count. now rewrite (H E n). Qed.

Lemma quiet_send_sent {A} (m : M A) E n : quiet is_send m -> sent (emitted (m E n)) = [].
Proof.
  intros H. specialize (H E n).
  induction (emitted (m E n)) as [| ev l IH]; [reflexivity |].
  simpl in H. destruct ev; simpl in *; try discriminate; auto.
Qed.

(** Closes a goal [quiet p m] for a computation made of binds over
    primitive steps. *)
Ltac quiet_steps :=
  repeat first
    [ apply quiet_ret | apply quiet_raise | apply quiet_asking
    | apply quiet_setting | apply quiet_may_fail | apply quiet_of_result
    | apply quiet_emit; first [reflexivity | solve [auto]]
    | match goal with
      | |- quiet _ (bind _ _) => apply quiet_bind; [| intro]
      | |- quiet _ (attempt _) => apply quiet_attempt
      | |- quiet _ (match ?x with _ => _ end) => destruct x
      end ].

(** Splits the cases of an [except] clause list [h e = Some k]. *)
Ltac handler_cases H :=
  simpl in H;
  repeat match type of H with
         | (if ?c then _ else _) = Some _ => destruct c
         end;
  try discriminate H; injection H as <-.

Lemma quiet_extract_tweet handle cutoff el tweets :
  quiet other_than_scraping (extract_tweet handle cutoff el tweets).
Proof.
  unfold extract_tweet, method_of, item, log. quiet_steps.
Qed.

Lemma quiet_scrape_entry handle cutoff el tweets :
  quiet other_than_scraping (scrape_entry handle cutoff el tweets).
Proof.
  apply quiet_try_except; [apply quiet_extract_tweet |].
  intros e k Hk. handler_cases Hk. unfold log; quiet_steps.
Qed.

Lemma quiet_scrape_entries handle cutoff els tweets :
  quiet other_than_scraping (scrape_entries handle cutoff els tweets).
Proof.
  revert tweets; induction els as [| el els IH]; intros tweets; simpl.
  - apply quiet_ret.
  - apply quiet_bind; [apply quiet_attempt, quiet_scrape_entry |].
    intros [tweets' | e]; [apply IH | apply quiet_ret].
Qed.

Lemma quiet_get_recent_tweets handle :
  quiet other_than_scraping (get_recent_tweets handle).
Proof.
  unfold get_recent_tweets, datetime_now_utc, load_timeline, driver_get, sleep,
    driver_find_elements, log.
  quiet_steps. apply quiet_scrape_entries.
Qed.

Lemma quiet_read_response p r :
  (forall lvl msg, p (Log lvl msg) = false) -> quiet p (read_response r).
Proof.
  intros Hlog.
  unfold read_response, response_json, dict_get, strip_upper, no_attribute, log.
  quiet_steps.
Qed.

Lemma quiet_is_buy_signal_wrapped text :
  quiet other_than_classifying (is_buy_signal_wrapped text).
Proof.
  unfold is_buy_signal_wrapped. apply quiet_bind.
  - apply quiet_try_except.
    + unfold open_and_close_connection; quiet_steps.
    + intros e k Hk. handler_cases Hk. unfold log; quiet_steps.
  - intros reachable. destruct reachable; simpl; [| apply quiet_ret].
    apply quiet_try_except.
    + unfold request_and_read, client_post; quiet_steps.
      apply quiet_read_response; reflexivity.
    + intros e k Hk. handler_cases Hk; unfold log; quiet_steps.
Qed.

Lemma quiet_is_buy_signal text : quiet other_than_classifying (is_buy_signal text).
Proof.
  apply quiet_retry_from; [reflexivity | apply quiet_is_buy_signal_wrapped].
Qed.

(** ** Computations that never raise *)

Lemma safe_ret {A} (a : A) : safe (ret a).
Proof. intros E n; now exists a. Qed.

Lemma safe_emit ev : safe (emit ev).
Proof. intros E n; now exists tt. Qed.

Lemma safe_bind {A B} (m : M A) (k : A -> M B) :
  safe m -> (forall a, safe (k a)) -> safe (bind m k).
Proof.
  intros Hm Hk E n. unfold bind. destruct (Hm E n) as [a Ha]. rewrite Ha.
  destruct (Hk a E (after (m E n))) as [b Hb]. now exists b.
Qed.

Lemma safe_attempt {A} (m : M A) : safe (attempt m).
Proof. intros E n. now exists (value (m E n)). Qed.

(** A [try] whose [except] clauses take every exception and do not raise
    themselves. *)
Lemma safe_try_except {A} (m : M A) h :
  (forall e, exists k, h e = Some k /\ safe k) -> safe (try_except m h).
Proof.
  intros Hh E n. unfold try_except.
  destruct (value (m E n)) as [a | e] eqn:Hv; [now exists a |].
  destruct (Hh e) as [k [-> Hk]]. simpl. apply Hk.
Qed.

Lemma safe_try_finally {A} (m : M A) fin :
  safe m -> safe fin -> safe (try_finally m fin).
Proof.
  intros Hm Hf E n. unfold try_finally. simpl.
  destruct (Hm E n) as [a ->]. destruct (Hf E (after (m E n))) as [u ->]. now exists a.
Qed.

Lemma safe_for_each {A} (l : list A) (body : A -> M unit) :
  (forall x, safe (body x)) -> safe (for_each l body).
Proof.
  intros Hb. induction l as [| x l IH]; simpl.
  - apply safe_ret.
  - apply safe_bind; [apply Hb | intros _; exact IH].
Qed.

Lemma safe_scrape_entries handle cutoff els tweets :
  safe (scrape_entries handle cutoff els tweets).
Proof.
  revert tweets; induction els as [| el els IH]; intros tweets; simpl.
  - apply safe_ret.
  - apply safe_bind; [apply safe_attempt |].
    intros [tweets' | e]; [apply IH | apply safe_ret].
Qed.

Lemma safe_get_recent_tweets handle : safe (get_recent_tweets handle).
Proof.
  unfold get_recent_tweets, datetime_now_utc, log.
  apply safe_bind; [apply safe_emit | intros _].
  apply safe_bind.
  { apply safe_bind; [intros E n; eexists; reflexivity | intros t; apply safe_ret]. }
  intros now. apply safe_bind; [apply safe_attempt | intros page].
  apply safe_bind.
  { destruct page as [found | e]; [| apply safe_ret].
    apply safe_bind; [apply safe_emit | intros _; apply safe_scrape_entries]. }
  intros outcome. apply safe_bind.
  { destruct (snd outcome) as [e |]; [| apply safe_ret].
    rewrite isinstance_Exception. apply safe_emit. }
  intros _. apply safe_bind; [apply safe_emit | intros _; apply safe_ret].
Qed.

Lemma safe_close : safe close.
Proof.
  apply safe_try_except. intros e. rewrite isinstance_Exception.
  eexists; split; [reflexivity | apply safe_emit].
Qed.

Lemma safe_process_tweet handle name t : safe (process_tweet handle name t).
Proof.
  apply safe_bind; [apply safe_emit | intros _].
  apply safe_try_except. intros e. rewrite isinstance_Exception.
  eexists; split; [reflexivity | apply safe_emit].
Qed.

Lemma safe_check_account account : safe (check_account account).
Proof.
  destruct account as [handle name]. unfold check_account, log.
  apply safe_bind; [apply safe_emit | intros _].
  apply safe_bind; [apply safe_get_recent_tweets | intros tweets].
  destruct tweets as [| t ts]; [apply safe_emit |].
  apply safe_bind; [apply safe_emit | intros _].
  apply safe_for_each. intros x. apply safe_process_tweet.
Qed.

(** ** The classifier, step by step *)

Lemma check_network_connection_run E n :
  check_network_connection E n =
  match open_connection_outcome E (n OpenConnection) with
  | None => mk_run (Ret true) (made OpenConnection n) [probe_event]
  | Some e =>
      if isinstance e gaierror || isinstance e OSError
      then mk_run (Ret false) (made OpenConnection n)
             [probe_event; Log ERROR ("Network error: " ++ str_exn e)]
      else mk_run (Raise e) (made OpenConnection n) [probe_event]
  end.
Proof.
  unfold check_network_connection, try_except, open_and_close_connection, bind,
    asking, emit, may_fail. simpl.
  destruct (open_connection_outcome E (n OpenConnection)) as [e |]; simpl;
    [destruct (isinstance e gaierror || isinstance e OSError) |]; reflexivity.
Qed.

Lemma client_post_run text E n :
  client_post HF_API_URL (create_prompt text) TIMEOUT E n =
  mk_run (post_outcome E (n Post)) (made Post n) [post_event E text].
Proof.
  unfold client_post, bind, setting, emit, asking, of_result, post_event. simpl.
  destruct (post_outcome E (n Post)); reflexivity.
Qed.

Lemma request_and_read_run text E n :
  request_and_read text E n =
  match post_outcome E (n Post) with
  | Ret r =>
      let rr := read_response r E (made Post n) in
      mk_run (value rr) (after rr) (post_event E text :: emitted rr)
  | Raise e => mk_run (Raise e) (made Post n) [post_event E text]
  end.
Proof.
  unfold request_and_read, bind. rewrite client_post_run. simpl.
  destruct (post_outcome E (n Post)); reflexivity.
Qed.

(** What reading a response gives, case by case. *)
Lemma read_response_other_status r E n :
  status_code r <> 200 ->
  value (read_response r E n) = Ret false /\
  existsb is_error_log (emitted (read_response r E n)) = true.
Proof.
  intros H. apply Z.eqb_neq in H. unfold read_response. rewrite H.
  unfold bind, log, emit. simpl.
  destruct (status_code r =? 401); [| destruct (status_code r =? 404)]; now split.
Qed.

Lemma read_response_not_json r E n :
  status_code r = 200 -> body_json r = None ->
  exists m, value (read_response r E n) = Raise (Raised JSONDecodeError m)
            /\ emitted (read_response r E n) = [].
Proof.
  intros Hs Hb. unfold read_response, response_json, bind.
  rewrite Hs, Hb. simpl. eexists; split; reflexivity.
Qed.

Lemma read_response_bad_shape r v E n :
  status_code r = 200 -> body_json r = Some v ->
  (forall first rest, v <> JList (first :: rest)) ->
  value (read_response r E n) = Ret false /\
  emitted (read_response r E n) = [Log ERROR "Invalid API response"].
Proof.
  intros Hs Hb Hv. unfold read_response, response_json, bind.
  rewrite Hs, Hb. simpl.
  destruct v as [| | | | [| first rest] |]; try (now split).
  now destruct (Hv first rest).
Qed.

Lemma read_response_list r first rest E n :
  status_code r = 200 -> body_json r = Some (JList (first :: rest)) ->
  match generated_text first with
  | Some s => value (read_response r E n) = Ret (is_yes s)
  | None => exists m, value (read_response r E n) = Raise (Raised AttributeError m)
  end.
Proof.
  intros Hs Hb. unfold read_response, response_json, bind.
  rewrite Hs, Hb. simpl. unfold generated_text, dict_get, strip_upper, no_attribute.
  destruct first as [| | | | |members]; simpl; try (eexists; reflexivity).
  destruct (lookup "generated_text" members) as [[| | | s | |] |]; simpl;
    try (eexists; reflexivity); reflexivity.
Qed.

(** Reading a response never raises a request error. *)
Lemma read_response_raises r E n e :
  value (read_response r E n) = Raise e -> isinstance e RequestError = false.
Proof.
  destruct (Z.eq_dec (status_code r) 200) as [Hs | Hs].
  - destruct (body_json r) as [v |] eqn:Hb.
    + destruct v as [| | | | [| first rest] |];
        try (destruct (read_response_bad_shape r _ E n Hs Hb) as [-> _];
             [intros ? ? ?; discriminate | discriminate]).
      pose proof (read_response_list r first rest E n Hs Hb) as H.
      destruct (generated_text first); [rewrite H; discriminate |].
      destruct H as [m ->]. intros [= <-]. reflexivity.
    + destruct (read_response_not_json r E n Hs Hb) as [m [-> _]].
      intros [= <-]. reflexivity.
  - destruct (read_response_other_status r E n Hs) as [-> _]. discriminate.
Qed.

(** The undecorated function once the probe went through: the two
    [except] clauses applied to the [try] block. *)
Lemma is_buy_signal_wrapped_reachable text E n :
  open_connection_outcome E (n OpenConnection) = None ->
  let body := request_and_read text E (made OpenConnection n) in
  is_buy_signal_wrapped text E n =
  match value body with
  | Ret b => mk_run (Ret b) (after body) (probe_event :: emitted body)
  | Raise e =>
      if isinstance e RequestError
      then mk_run (Raise e) (after body)
             (probe_event :: emitted body ++ [Log ERROR ("Connection error: " ++ str_exn e)])%list
      else mk_run (Ret false) (after body)
             (probe_event :: emitted body ++ [Log ERROR ("Analysis error: " ++ str_exn e)])%list
  end.
Proof.
  intros H body. unfold is_buy_signal_wrapped, bind.
  rewrite check_network_connection_run, H. simpl. unfold try_except. fold body.
  destruct (value body) as [b | e] eqn:Hv.
  - simpl. destruct body; simpl in *; subst; reflexivity.
  - destruct (isinstance e RequestError); simpl.
    + reflexivity.
    + rewrite isinstance_Exception. reflexivity.
Qed.

Lemma is_buy_signal_wrapped_unreachable text E n e :
  open_connection_outcome E (n OpenConnection) = Some e ->
  isinstance e OSError = true ->
  is_buy_signal_wrapped text E n =
  mk_run (Ret false) (made OpenConnection n)
    [probe_event; Log ERROR ("Network error: " ++ str_exn e)].
Proof.
  intros H Hos. unfold is_buy_signal_wrapped, bind.
  rewrite check_network_connection_run, H, Hos, orb_true_r. reflexivity.
Qed.

(** The decorated function in terms of the undecorated one: one attempt,
    and a second one, two seconds later, after a connect failure or a
    timeout. *)
Lemma is_buy_signal_run text E n :
  let first := is_buy_signal_wrapped text E n in
  is_buy_signal text E n =
  match value first with
  | Ret b => mk_run (Ret b) (after first) (emitted first)
  | Raise e =>
      if is_buy_signal_retry_on e
      then
        let second := is_buy_signal_wrapped text E (after first) in
        mk_run
          (match value second with
           | Ret b => Ret b
           | Raise e' => if is_buy_signal_retry_on e' then Raise (RetryError e')
                         else Raise e'
           end)
          (after second)
          (emitted first ++ EvSleep 2 :: emitted second)%list
      else mk_run (Raise e) (after first) (emitted first)
  end.
Proof.
  intros first. unfold is_buy_signal, retry. simpl.
  unfold bind at 1. unfold attempt at 1. simpl. fold first.
  destruct (value first) as [b | e].
  - simpl. now rewrite app_nil_r.
  - destruct (is_buy_signal_retry_on e); simpl; [| now rewrite app_nil_r].
    unfold bind, attempt, sleep, emit. simpl.
    set (second := is_buy_signal_wrapped text E (after first)).
    destruct (value second) as [b | e']; simpl.
    + now rewrite app_nil_r.
    + destruct (is_buy_signal_retry_on e'); simpl; now rewrite app_nil_r.
Qed.

(** Every attempt starts with exactly one probe. *)
Lemma one_probe_per_attempt text E n :
  count is_probe (emitted (is_buy_signal_wrapped text E n)) = 1%nat.
Proof.
  destruct (open_connection_outcome E (n OpenConnection)) as [e |] eqn:Ho.
  - unfold is_buy_signal_wrapped, bind. rewrite check_network_connection_run, Ho.
    destruct (isinstance e gaierror || isinstance e OSError); reflexivity.
  - rewrite (is_buy_signal_wrapped_reachable text E n Ho).
    assert (Hq : count is_probe
                   (emitted (request_and_read text E (made OpenConnection n))) = O).
    { apply quiet_count. unfold request_and_read, client_post. quiet_steps.
      apply quiet_read_response; reflexivity. }
    destruct (value (request_and_read text E (made OpenConnection n))) as [b | e].
    + cbn [emitted].
      change (count is_probe (probe_event :: ?l)) with (S (count is_probe l)).
      now rewrite Hq.
    + destruct (isinstance e RequestError); cbn [emitted];
        change (count is_probe (probe_event :: ?l)) with (S (count is_probe l));
        rewrite count_app, Hq; reflexivity.
Qed.

Lemma wait_exponential_bounds multiplier k :
  2 <= wait_exponential multiplier 2 15 k <= 15.
Proof. unfold wait_exponential. lia. Qed.

Lemma wait_exponential_monotone k :
  (1 <= k)%nat -> wait_exponential 1 2 15 k <= wait_exponential 1 2 15 (S k).
Proof.
  intros Hk. unfold wait_exponential.
  assert (2 ^ (Z.of_nat k - 1) <= 2 ^ (Z.of_nat (S k) - 1))
    by (apply Z.pow_le_mono_r; lia).
  lia.
Qed.

(** ** C1: the classifier reads the response *)

Lemma is_buy_signal_of_response text E n r :
  open_connection_outcome E (n OpenConnection) = None ->
  post_outcome E (n Post) = Ret r ->
  let rr := read_response r E (made Post (made OpenConnection n)) in
  value (is_buy_signal text E n)
  = Ret (match value rr with Ret b => b | Raise _ => false end)
  /\ (forall ev, In ev (emitted rr) -> In ev (emitted (is_buy_signal text E n)))
  /\ (forall e, value rr = Raise e ->
        In (Log ERROR ("Analysis error: " ++ str_exn e)) (emitted (is_buy_signal text E n))).
Proof.
  intros Ho Hp rr.
  pose proof (is_buy_signal_run text E n) as Hrun. cbv zeta in Hrun.
  rewrite (is_buy_signal_wrapped_reachable text E n Ho) in Hrun. cbv zeta in Hrun.
  rewrite request_and_read_run in Hrun.
  change (made OpenConnection n Post) with (n Post) in Hrun.
  rewrite Hp in Hrun. cbv zeta in Hrun. fold rr in Hrun. simpl value in Hrun.
  destruct (value rr) as [b | e] eqn:Hv.
  - rewrite Hrun. simpl. repeat split; [| discriminate]. intros ev Hin. now do 2 right.
  - rewrite (read_response_raises r E _ e Hv) in Hrun. rewrite Hrun. simpl.
    repeat split.
    + intros ev Hin. do 2 right. apply in_or_app. now left.
    + intros e' [= <-]. do 2 right. apply in_or_app. right. now left.
Qed.

(** C1.  When the probe went through and the request came back with a
    response [r]: a status other than 200 gives [False]; a 200 whose body is
    not a non-empty list (or not JSON at all) gives [False] and an error in
    the log; a 200 whose body is a non-empty list gives [True] exactly when
    the first element's generated text, stripped and upper-cased, is
    ["YES"] ([False] too when that element has no text to read).  So
    [" yes "] gives [True], ["no"] gives [False], and 401 gives [False]. *)
Theorem is_buy_signal_reads_response :
  forall text E n r,
    open_connection_outcome E (n OpenConnection) = None ->
    post_outcome E (n Post) = Ret r ->
    let run := is_buy_signal text E n in
    (status_code r <> 200 -> value run = Ret false)
    /\ (status_code r = 401 -> value run = Ret false)
    /\ (status_code r = 200 ->
        (forall first rest, body_json r <> Some (JList (first :: rest))) ->
        value run = Ret false /\ existsb is_error_log (emitted run) = true)
    /\ (forall first rest,
          status_code r = 200 -> body_json r = Some (JList (first :: rest)) ->
          value run = Ret (match generated_text first with
                           | Some s => String.eqb (PyStr.upper (PyStr.strip s)) "YES"
                           | None => false
                           end))
    /\ (r = answer " yes " -> value run = Ret true)
    /\ (r = answer "no" -> value run = Ret false).
Proof.
  intros text E n r Ho Hp run.
  destruct (is_buy_signal_of_response text E n r Ho Hp) as (Hval & Hev & Herr).
  fold run in Hval, Hev, Herr.
  set (n' := made Post (made OpenConnection n)) in *.
  assert (Hother : status_code r <> 200 -> value run = Ret false).
  { intros Hs. destruct (read_response_other_status r E n' Hs) as [Hv _].
    now rewrite Hval, Hv. }
  assert (Hlist : forall first rest,
             status_code r = 200 -> body_json r = Some (JList (first :: rest)) ->
             value run = Ret (match generated_text first with
                              | Some s => is_yes s | None => false end)).
  { intros first rest Hs Hb. pose proof (read_response_list r first rest E n' Hs Hb) as H.
    rewrite Hval. destruct (generated_text first); [now rewrite H |].
    destruct H as [m ->]. reflexivity. }
  repeat split.
  - exact Hother.
  - intros Hs. apply Hother. lia.
  - destruct (body_json r) as [v |] eqn:Hb.
    + destruct (read_response_bad_shape r v E n' H Hb) as [Hv _].
      * intros first rest ->. now apply (H0 first rest).
      * now rewrite Hval, Hv.
    + destruct (read_response_not_json r E n' H Hb) as [m [Hv _]].
      now rewrite Hval, Hv.
  - apply existsb_exists. destruct (body_json r) as [v |] eqn:Hb.
    + destruct (read_response_bad_shape r v E n' H Hb) as [_ Hem].
      * intros first rest ->. now apply (H0 first rest).
      * exists (Log ERROR "Invalid API response"). split; [| reflexivity].
        apply Hev. rewrite Hem. now left.
    + destruct (read_response_not_json r E n' H Hb) as [m [Hv _]].
      eexists. split; [apply (Herr _ Hv) | reflexivity].
  - exact Hlist.
  - intros ->. now rewrite (Hlist _ _ eq_refl eq_refl).
  - intros ->. now rewrite (Hlist _ _ eq_refl eq_refl).
Qed.

Lemma is_buy_signal_reads_response_witness :
  open_connection_outcome (E_answers " yes ") (fresh OpenConnection) = None
  /\ post_outcome (E_answers " yes ") (fresh Post) = Ret (answer " yes ")
  /\ value (is_buy_signal "Buy $XYZ now!!" (E_answers " yes ") fresh) = Ret true.
Proof.
  split; [reflexivity | split; [reflexivity |]].
  apply (is_buy_signal_reads_response "Buy $XYZ now!!" (E_answers " yes ") fresh
           (answer " yes ") eq_refl eq_refl).
  reflexivity.
Defined.

(** ** C2: the retry decorator *)

Lemma retry_on_spec (e : exn) :
  is_buy_signal_retry_on e = true
  <-> isinstance e ConnectError = true \/ isinstance e TimeoutException = true.
Proof.
  unfold is_buy_signal_retry_on, retry_if_exception_type. simpl.
  rewrite orb_false_r, orb_true_iff. reflexivity.
Qed.

(** C2, as the code has it.  The wrapper calls the function again exactly
    after a connect failure or a timeout; it makes one attempt, or two with
    a sleep of [wait 1] seconds between them; every wait lies in [2, 15]
    and the waits do not decrease; an exception of another type leaves the
    wrapper as it is, after the attempt that raised it; and when the second
    attempt fails with a connect failure or a timeout too, the wrapper
    raises tenacity's [RetryError], which holds that failure. *)
Theorem is_buy_signal_retry_policy :
  forall text E n,
    let first := is_buy_signal_wrapped text E n in
    let second := is_buy_signal_wrapped text E (after first) in
    let run := is_buy_signal text E n in
    (forall e, is_buy_signal_retry_on e = true
               <-> isinstance e ConnectError = true \/ isinstance e TimeoutException = true)
    /\ match value first with
       | Ret b => value run = Ret b /\ emitted run = emitted first
       | Raise e =>
           if is_buy_signal_retry_on e
           then emitted run
                = (emitted first ++ EvSleep (is_buy_signal_wait 1) :: emitted second)%list
                /\ value run
                   = match value second with
                     | Ret b => Ret b
                     | Raise e' =>
                         if is_buy_signal_retry_on e' then Raise (RetryError e')
                         else Raise e'
                     end
           else value run = Raise e /\ emitted run = emitted first
       end
    /\ (1 <= count is_probe (emitted run) <= 2)%nat
    /\ (forall k, 2 <= is_buy_signal_wait k <= 15)
    /\ (forall k, (1 <= k)%nat -> is_buy_signal_wait k <= is_buy_signal_wait (S k)).
Proof.
  intros text E n first second run.
  pose proof (is_buy_signal_run text E n) as Hrun. cbv zeta in Hrun.
  fold first in Hrun. fold second in Hrun. fold run in Hrun.
  pose proof (one_probe_per_attempt text E n) as H1. fold first in H1.
  pose proof (one_probe_per_attempt text E (after first)) as H2. fold second in H2.
  split; [exact retry_on_spec |].
  split; [| split; [| split]].
  - destruct (value first) as [b | e]; [now rewrite Hrun |].
    destruct (is_buy_signal_retry_on e); now rewrite Hrun.
  - destruct (value first) as [b | e]; [rewrite Hrun; simpl; lia |].
    destruct (is_buy_signal_retry_on e); rewrite Hrun; simpl; [| lia].
    rewrite count_app.
    change (count is_probe (EvSleep 2 :: emitted second))
      with (count is_probe (emitted second)).
    lia.
  - intros k. apply wait_exponential_bounds.
  - intros k. apply wait_exponential_monotone.
Qed.

(** The claim's last-but-one clause fails: with the endpoint refusing
    connections, both attempts raise [ConnectError], and what leaves
    [is_buy_signal] is a [RetryError], not that [ConnectError]. *)
Lemma exhausted_retry_raises_RetryError :
  value (is_buy_signal_wrapped "Buy $XYZ now!!" E_connect_down fresh) = Raise connect_failure
  /\ is_buy_signal_retry_on connect_failure = true
  /\ value (is_buy_signal "Buy $XYZ now!!" E_connect_down fresh)
     = Raise (RetryError connect_failure)
  /\ value (is_buy_signal "Buy $XYZ now!!" E_connect_down fresh) <> Raise connect_failure.
Proof.
  assert (H : value (is_buy_signal "Buy $XYZ now!!" E_connect_down fresh)
              = Raise (RetryError connect_failure)) by reflexivity.
  split; [reflexivity | split; [reflexivity | split; [exact H |]]].
  rewrite H. discriminate.
Qed.

(** ** C3: which exceptions leave the classifier *)

(** C3, as the code has it.  Once the probe went through, an exception [e]
    of the request or of the reading of its response that is not an
    [httpx.RequestError] is caught and logged and the answer is [False];
    a [RequestError] of any kind is logged and raised again, and one that
    is neither a connect failure nor a timeout also leaves the decorated
    function at once. *)
Theorem is_buy_signal_except_clauses :
  forall text E n e,
    open_connection_outcome E (n OpenConnection) = None ->
    value (request_and_read text E (made OpenConnection n)) = Raise e ->
    let run := is_buy_signal_wrapped text E n in
    if isinstance e RequestError
    then value run = Raise e
         /\ In (Log ERROR ("Connection error: " ++ str_exn e)) (emitted run)
         /\ (is_buy_signal_retry_on e = false -> value (is_buy_signal text E n) = Raise e)
    else value run = Ret false
         /\ In (Log ERROR ("Analysis error: " ++ str_exn e)) (emitted run)
         /\ value (is_buy_signal text E n) = Ret false.
Proof.
  intros text E n e Ho Hv run.
  pose proof (is_buy_signal_wrapped_reachable text E n Ho) as Hw. cbv zeta in Hw.
  rewrite Hv in Hw. fold run in Hw.
  pose proof (is_buy_signal_run text E n) as Hrun. cbv zeta in Hrun. fold run in Hrun.
  destruct (isinstance e RequestError);
    rewrite Hw in Hrun; cbn [value after emitted] in Hrun;
    rewrite Hw; cbn [value emitted];
    (split; [reflexivity | split]).
  - right. apply in_or_app. right. now left.
  - intros Hno. rewrite Hno in Hrun. now rewrite Hrun.
  - right. apply in_or_app. right. now left.
  - now rewrite Hrun.
Qed.

Lemma is_buy_signal_except_clauses_witness :
  open_connection_outcome E_read_error (fresh OpenConnection) = None
  /\ value (request_and_read "Buy $XYZ now!!" E_read_error (made OpenConnection fresh))
     = Raise read_failure
  /\ value (is_buy_signal_wrapped "Buy $XYZ now!!" E_read_error fresh) = Raise read_failure.
Proof.
  split; [reflexivity | split; [reflexivity |]].
  exact (proj1 (is_buy_signal_except_clauses "Buy $XYZ now!!" E_read_error fresh
                  read_failure eq_refl eq_refl)).
Defined.

(** The claim fails for a read error: it is neither a connect failure nor
    a timeout, and it leaves both the undecorated and the decorated
    function. *)
Lemma read_error_escapes_is_buy_signal :
  isinstance read_failure ConnectError = false
  /\ isinstance read_failure TimeoutException = false
  /\ value (is_buy_signal_wrapped "Buy $XYZ now!!" E_read_error fresh) = Raise read_failure
  /\ value (is_buy_signal "Buy $XYZ now!!" E_read_error fresh) = Raise read_failure.
Proof. repeat split; reflexivity. Qed.

(** ** C6: the probe *)

(** C6.  When the connection to the endpoint's host on port 443 fails (an
    [OSError], which [socket.gaierror] is too), [is_buy_signal] returns
    [False]: it raises nothing, sends no request and logs the failure. *)
Theorem unreachable_endpoint_gives_false :
  forall text E n e,
    open_connection_outcome E (n OpenConnection) = Some e ->
    isinstance e OSError = true ->
    let run := is_buy_signal text E n in
    value run = Ret false
    /\ emitted run
       = [EvOpenConnection "api-inference.huggingface.co" 443;
          Log ERROR ("Network error: " ++ str_exn e)]
    /\ count is_post (emitted run) = O
    /\ after run Post = n Post.
Proof.
  intros text E n e Ho Hos run.
  pose proof (is_buy_signal_run text E n) as Hrun. cbv zeta in Hrun.
  rewrite (is_buy_signal_wrapped_unreachable text E n e Ho Hos) in Hrun.
  simpl in Hrun. fold run in Hrun. rewrite Hrun. repeat split.
Qed.

Lemma unreachable_endpoint_gives_false_witness :
  open_connection_outcome E_unreachable (fresh OpenConnection) = Some name_failure
  /\ isinstance name_failure OSError = true
  /\ value (is_buy_signal "Buy $XYZ now!!" E_unreachable fresh) = Ret false.
Proof.
  split; [reflexivity | split; [reflexivity |]].
  exact (proj1 (unreachable_endpoint_gives_false "Buy $XYZ now!!" E_unreachable fresh
                  name_failure eq_refl eq_refl)).
Defined.

(** ** The scraper, step by step *)

Lemma extract_tweet_run handle cutoff el tweets E n :
  extract_tweet handle cutoff el tweets E n =
  match entry_outcome handle cutoff el with
  | Ret (Some t) =>
      mk_run (Ret (tweets ++ [t])%list) n
        [Log INFO ("New tweet @" ++ PyDate.isoformat (tweet_time t))]
  | Ret None => mk_run (Ret tweets) n []
  | Raise e => mk_run (Raise e) n []
  end.
Proof.
  unfold extract_tweet, entry_outcome, index_error, method_of, item, log.
  destruct (tweet_content el) as [content | e]; [| reflexivity].
  cbn [of_result]. rewrite bind_ret.
  destruct (tweet_link_href el) as [[link |] | e]; try reflexivity.
  cbn [of_result]. rewrite !bind_ret.
  destruct (nth_error (PyStr.split link "/status/") 1) as [after_marker |]; [| reflexivity].
  rewrite bind_ret.
  destruct (nth_error (PyStr.split after_marker "#") 0) as [id |]; [| reflexivity].
  rewrite bind_ret.
  destruct (tweet_date_title el) as [[date_str |] | e]; try reflexivity.
  cbn [of_result]. rewrite !bind_ret.
  destruct (Strptime.strptime (PyStr.replace date_str " UTC" "")) as [d |]; [| reflexivity].
  rewrite bind_ret. cbv zeta.
  destruct (PyDate.gt (PyDate.replace_tzinfo d (Some timezone_utc)) cutoff); reflexivity.
Qed.

Lemma scrape_entry_run handle cutoff el tweets E n :
  scrape_entry handle cutoff el tweets E n =
  match entry_outcome handle cutoff el with
  | Ret (Some t) =>
      mk_run (Ret (tweets ++ [t])%list) n
        [Log INFO ("New tweet @" ++ PyDate.isoformat (tweet_time t))]
  | Ret None => mk_run (Ret tweets) n []
  | Raise e =>
      if skips e
      then mk_run (Ret tweets) n [Log DEBUG ("Skipping tweet: " ++ str_exn e)]
      else mk_run (Raise e) n []
  end.
Proof.
  unfold scrape_entry, try_except, skips. rewrite extract_tweet_run.
  destruct (entry_outcome handle cutoff el) as [[t |] | e]; try reflexivity.
  cbn [value]. destruct (isinstance e NoSuchElementException || isinstance e ValueError);
    reflexivity.
Qed.

(** The loop leaves the counters alone. *)
Lemma scrape_entries_after handle cutoff els tweets E n :
  after (scrape_entries handle cutoff els tweets E n) = n.
Proof.
  revert tweets; induction els as [| el els IH]; intros tweets; [reflexivity |].
  cbn [scrape_entries]. unfold bind, attempt. rewrite scrape_entry_run.
  destruct (entry_outcome handle cutoff el) as [[t |] | e]; cbn [value after];
    try apply IH.
  destruct (skips e); cbn [value after]; [apply IH | reflexivity].
Qed.

Lemma entry_outcome_retained handle cutoff el t :
  entry_outcome handle cutoff el = Ret (Some t) -> retained handle cutoff t.
Proof.
  unfold entry_outcome.
  destruct (tweet_content el) as [content | ?]; [| discriminate].
  destruct (tweet_link_href el) as [[link |] | ?]; try discriminate.
  destruct (nth_error _ 1) as [after_marker |]; [| discriminate].
  destruct (nth_error _ 0) as [id |]; [| discriminate].
  destruct (tweet_date_title el) as [[date_str |] | ?]; try discriminate.
  destruct (Strptime.strptime _) as [d |]; [| discriminate].
  cbv zeta.
  destruct (PyDate.gt _ cutoff) eqn:Hgt; [| discriminate].
  intros H.
  assert (Ht : mk_tweet (PyStr.take 500 content) id handle
                 (PyDate.replace_tzinfo d (Some timezone_utc)) = t) by congruence.
  rewrite <- Ht. unfold retained. cbn [tweet_text tweet_time tweet_handle].
  split; [apply length_take | split; [reflexivity | split; [exact Hgt | reflexivity]]].
Qed.

(** The loop invariant: the list only grows by retained tweets, at most
    one per element. *)
Lemma scrape_entries_invariant handle cutoff els :
  forall tweets E n out esc,
    value (scrape_entries handle cutoff els tweets E n) = Ret (out, esc) ->
    Forall (retained handle cutoff) tweets ->
    Forall (retained handle cutoff) out
    /\ (List.length out <= List.length tweets + List.length els)%nat.
Proof.
  induction els as [| el els IH]; intros tweets E n out esc Hv Hinv.
  - injection Hv as <- <-. split; [exact Hinv | simpl; lia].
  - cbn [scrape_entries] in Hv. unfold bind, attempt in Hv.
    rewrite scrape_entry_run in Hv.
    destruct (entry_outcome handle cutoff el) as [[t |] | e] eqn:He;
      cbn [value after emitted] in Hv.
    + apply IH in Hv.
      * destruct Hv as [Hf Hl]. split; [exact Hf |].
        rewrite length_app in Hl. simpl in *. lia.
      * apply Forall_app. split; [exact Hinv |].
        constructor; [| constructor]. eapply entry_outcome_retained; eauto.
    + apply IH in Hv; [| exact Hinv]. simpl. destruct Hv; split; [assumption | lia].
    + destruct (skips e); cbn [value after emitted] in Hv.
      * apply IH in Hv; [| exact Hinv]. simpl. destruct Hv; split; [assumption | lia].
      * injection Hv as <- <-. split; [exact Hinv | simpl; lia].
Qed.

Lemma load_timeline_run handle E n :
  load_timeline handle E n =
  match driver_get_outcome E (n DriverGet) with
  | Some e => mk_run (Raise e) (made DriverGet n) [EvDriverGet ("https://nitter.net/" ++ handle)]
  | None =>
      mk_run (find_elements_outcome E (n FindElements))
        (made FindElements (made DriverGet n))
        [EvDriverGet ("https://nitter.net/" ++ handle); EvSleep 3;
         EvFindElements ".timeline-item"]
  end.
Proof.
  unfold load_timeline, driver_get, sleep, driver_find_elements, bind, emit, asking,
    may_fail, of_result.
  cbn [value after emitted].
  destruct (driver_get_outcome E (n DriverGet)) as [e |]; [reflexivity |].
  cbn [value after emitted ret].
  change (made DriverGet n FindElements) with (n FindElements).
  destruct (find_elements_outcome E (n FindElements)); reflexivity.
Qed.

(** [get_recent_tweets] when the page does not load. *)
Lemma get_recent_tweets_no_page handle E n e :
  value (load_timeline handle E (made Clock n)) = Raise e ->
  let page := load_timeline handle E (made Clock n) in
  get_recent_tweets handle E n =
  mk_run (Ret []) (after page)
    (Log INFO ("Scraping @" ++ handle)
     :: emitted page
     ++ [Log ERROR ("Scraping error: " ++ str_exn e);
         Log INFO ("Found " ++ PyStr.of_nat 0 ++ " valid tweets")])%list.
Proof.
  intros Hv page. unfold get_recent_tweets, datetime_now_utc, log.
  rewrite bind_emit. apply run_cons.
  rewrite bind_assoc, bind_asking, bind_ret. cbv zeta.
  rewrite bind_attempt. rewrite Hv. fold page. apply run_app.
  rewrite bind_ret. cbn [snd fst]. rewrite isinstance_Exception.
  rewrite bind_emit. apply run_cons. rewrite bind_emit. reflexivity.
Qed.

(** [get_recent_tweets] when the page loaded: the loop over its first five
    elements decides. *)
Lemma get_recent_tweets_page handle E n found tweets esc :
  value (load_timeline handle E (made Clock n)) = Ret found ->
  let page := load_timeline handle E (made Clock n) in
  let loop := scrape_entries handle (cutoff_at E n) (firstn 5 found) [] E (after page) in
  value loop = Ret (tweets, esc) ->
  get_recent_tweets handle E n =
  mk_run (Ret tweets) (after page)
    (Log INFO ("Scraping @" ++ handle)
     :: emitted page
     ++ Log DEBUG ("Found " ++ PyStr.of_nat (List.length (firstn 5 found)) ++ " tweets")
     :: emitted loop
     ++ match esc with
        | Some e => [Log ERROR ("Scraping error: " ++ str_exn e)]
        | None => []
        end
     ++ [Log INFO ("Found " ++ PyStr.of_nat (List.length tweets) ++ " valid tweets")])%list.
Proof.
  intros Hv page loop Hl. subst loop page.
  unfold get_recent_tweets, datetime_now_utc, log.
  rewrite bind_emit. apply run_cons.
  rewrite bind_assoc, bind_asking, bind_ret. cbv zeta.
  rewrite bind_attempt. rewrite Hv.
  apply run_app.
  rewrite bind_assoc.
  rewrite bind_emit.
  apply run_cons.
  unfold bind at 1. rewrite Hl.
  cbn [value after emitted].
  rewrite scrape_entries_after. apply run_app. cbn [snd fst].
  destruct esc as [e |].
  - rewrite isinstance_Exception. rewrite bind_emit. apply run_cons.
    rewrite bind_emit. reflexivity.
  - rewrite bind_ret, bind_emit. reflexivity.
Qed.

(** The loop over a list that starts with entries it gets through. *)
Lemma scrape_entries_app handle cutoff before more :
  forall tweets collected E n,
    value (scrape_entries handle cutoff before tweets E n) = Ret (collected, None) ->
    scrape_entries handle cutoff (before ++ more)%list tweets E n =
    mk_run (value (scrape_entries handle cutoff more collected E n)) n
      (emitted (scrape_entries handle cutoff before tweets E n)
       ++ emitted (scrape_entries handle cutoff more collected E n))%list.
Proof.
  induction before as [| el before IH]; intros tweets collected E n Hv.
  - injection Hv as <-. cbn [app scrape_entries ret emitted].
    pose proof (scrape_entries_after handle cutoff more tweets E n) as Ha.
    destruct (scrape_entries handle cutoff more tweets E n) as [v a l].
    cbn [value after emitted] in *. now subst a.
  - cbn [app scrape_entries] in *. rewrite bind_attempt in Hv. rewrite !bind_attempt.
    rewrite scrape_entry_run in *.
    destruct (entry_outcome handle cutoff el) as [[t |] | e];
      cbn [value after emitted] in *.
    + rewrite (IH _ _ _ _ Hv). cbn [value after emitted]. now rewrite app_assoc.
    + rewrite (IH _ _ _ _ Hv). reflexivity.
    + destruct (skips e); cbn [value after emitted] in *.
      * rewrite (IH _ _ _ _ Hv). cbn [value after emitted]. now rewrite app_assoc.
      * discriminate.
Qed.

(** An element whose permalink has no ["/status/"] in it. *)
Lemma entry_outcome_no_marker handle cutoff el content link :
  tweet_content el = Ret content ->
  tweet_link_href el = Ret (Some link) ->
  PyStr.contains "/status/" link = false ->
  entry_outcome handle cutoff el = Raise index_error.
Proof.
  intros Hc Hl Hm. unfold entry_outcome. rewrite Hc, Hl, (split_absent _ _ Hm).
  reflexivity.
Qed.

(** ** C4: failures of a whole account *)

(** The result of a scrape: empty when the page does not load, and what
    the loop over the first five elements collected otherwise. *)
Lemma get_recent_tweets_result handle E n :
  match value (load_timeline handle E (made Clock n)) with
  | Raise e => value (get_recent_tweets handle E n) = Ret []
  | Ret found =>
      exists tweets escaped,
        value (scrape_entries handle (cutoff_at E n) (firstn 5 found) [] E
                 (after (load_timeline handle E (made Clock n))))
        = Ret (tweets, escaped)
        /\ value (get_recent_tweets handle E n) = Ret tweets
  end.
Proof.
  destruct (value (load_timeline handle E (made Clock n))) as [found | e] eqn:Hp.
  - destruct (safe_scrape_entries handle (cutoff_at E n) (firstn 5 found) [] E
                (after (load_timeline handle E (made Clock n))))
      as [[tweets escaped] Hl].
    exists tweets, escaped. split; [exact Hl |].
    now rewrite (get_recent_tweets_page handle E n found tweets escaped Hp Hl).
  - now rewrite (get_recent_tweets_no_page handle E n e Hp).
Qed.

(** C4, as the code has it.  [get_recent_tweets] never raises.  When the
    page does not load, the error is logged and the result is empty.  When
    an exception leaves the loop over the entries, it is logged at error
    level and the result is what the loop had collected by then. *)
Theorem get_recent_tweets_contains_failures :
  forall handle E n,
    let page := load_timeline handle E (made Clock n) in
    let run := get_recent_tweets handle E n in
    match value page with
    | Raise e =>
        value run = Ret []
        /\ In (Log ERROR ("Scraping error: " ++ str_exn e)) (emitted run)
    | Ret found =>
        exists tweets escaped,
          value (scrape_entries handle (cutoff_at E n) (firstn 5 found) [] E (after page))
          = Ret (tweets, escaped)
          /\ value run = Ret tweets
          /\ match escaped with
             | Some e => In (Log ERROR ("Scraping error: " ++ str_exn e)) (emitted run)
             | None => True
             end
    end.
Proof.
  intros handle E n page run.
  destruct (value page) as [found | e] eqn:Hp.
  - destruct (safe_scrape_entries handle (cutoff_at E n) (firstn 5 found) [] E (after page))
      as [[tweets escaped] Hl].
    exists tweets, escaped. split; [exact Hl |].
    unfold run. rewrite (get_recent_tweets_page handle E n found tweets escaped Hp Hl).
    cbn [value emitted]. split; [reflexivity |].
    destruct escaped as [e |]; [| exact I].
    right. apply in_or_app. right. right. apply in_or_app. right. now left.
  - unfold run. rewrite (get_recent_tweets_no_page handle E n e Hp).
    cbn [value emitted]. split; [reflexivity |].
    right. apply in_or_app. right. now left.
Qed.

(** The claim fails when the third entry's permalink has no ["/status/"]:
    the [IndexError] reaches the handler of the whole account, and the two
    tweets collected before it are returned, not an empty list. *)
Lemma entry_failure_keeps_collected_tweets :
  entry_outcome "alice" (cutoff_at E_bad_permalink fresh) entry_without_status
  = Raise index_error
  /\ value (get_recent_tweets "alice" E_bad_permalink fresh)
     = Ret [tweet_at "Buy $XYZ now!!" "101" "alice" 8;
            tweet_at "GM frens, $ABC looks ready" "102" "alice" 10]
  /\ In (Log ERROR "Scraping error: list index out of range")
        (emitted (get_recent_tweets "alice" E_bad_permalink fresh))
  /\ value (get_recent_tweets "alice" E_bad_permalink fresh) <> Ret [].
Proof.
  assert (H : value (get_recent_tweets "alice" E_bad_permalink fresh)
              = Ret [tweet_at "Buy $XYZ now!!" "101" "alice" 8;
                     tweet_at "GM frens, $ABC looks ready" "102" "alice" 10])
    by (vm_compute; reflexivity).
  split; [vm_compute; reflexivity | split; [exact H | split]].
  - vm_compute. tauto.
  - rewrite H. discriminate.
Qed.

(** ** C5: what a scrape returns *)

(** C5.  [get_recent_tweets] returns a list of at most five tweets; each
    has a text of at most 500 characters and a time that carries the UTC
    offset and is strictly after the scrape time less one hour; an entry
    whose time is not after that cutoff leaves the list as it was. *)
Theorem get_recent_tweets_output_invariants :
  forall handle E n,
    match value (get_recent_tweets handle E n) with
    | Ret tweets =>
        (List.length tweets <= 5)%nat
        /\ Forall (fun t =>
                     (String.length (tweet_text t) <= 500)%nat
                     /\ dt_tzinfo (tweet_time t) = Some timezone_utc
                     /\ PyDate.gt (tweet_time t) (cutoff_at E n) = true) tweets
    | Raise _ => False
    end
    /\ (forall el date_str d tweets E' n' out,
          tweet_date_title el = Ret (Some date_str) ->
          Strptime.strptime (PyStr.replace date_str " UTC" "") = Some d ->
          PyDate.gt (PyDate.replace_tzinfo d (Some timezone_utc)) (cutoff_at E n) = false ->
          value (scrape_entry handle (cutoff_at E n) el tweets E' n') = Ret out ->
          out = tweets).
Proof.
  intros handle E n. split.
  - pose proof (get_recent_tweets_result handle E n) as H.
    destruct (value (load_timeline handle E (made Clock n))) as [found | e].
    + destruct H as (tweets & escaped & Hl & ->).
      destruct (scrape_entries_invariant _ _ _ _ _ _ _ _ Hl (Forall_nil _)) as [Hf Hn].
      split.
      * pose proof (firstn_le_length 5 found) as H5.
        change (List.length (@nil Tweet)) with O in Hn. lia.
      * eapply Forall_impl; [| exact Hf]. intros t (H1 & H2 & H3 & _). auto.
    + rewrite H. split; [simpl; lia | constructor].
  - intros el date_str d tweets E' n' out Ht Hd Hgt Hv.
    rewrite scrape_entry_run in Hv.
    assert (Hno : forall t, entry_outcome handle (cutoff_at E n) el <> Ret (Some t)).
    { intros t. unfold entry_outcome.
      destruct (tweet_content el) as [content | ?]; [| discriminate].
      destruct (tweet_link_href el) as [[link |] | ?]; try discriminate.
      destruct (nth_error _ 1) as [after_marker |]; [| discriminate].
      destruct (nth_error _ 0) as [id |]; [| discriminate].
      rewrite Ht, Hd. cbv zeta. rewrite Hgt. discriminate. }
    destruct (entry_outcome handle (cutoff_at E n) el) as [[t |] | e].
    + now destruct (Hno t).
    + now injection Hv.
    + destruct (skips e); [now injection Hv | discriminate].
Qed.

(** ** C10: a permalink without ["/status/"] *)

Lemma firstn_5_middle {A} (before : list A) (el : A) (rest : list A) :
  (List.length before < 5)%nat ->
  firstn 5 (before ++ el :: rest)%list
  = (before ++ el :: firstn (4 - List.length before) rest)%list.
Proof.
  intros H. rewrite firstn_app, firstn_all2 by lia.
  replace (5 - List.length before)%nat with (S (4 - List.length before)) by lia.
  reflexivity.
Qed.

(** C10.  The handler of one entry takes [NoSuchElementException] and
    [ValueError] and nothing else.  For an entry among the first five whose
    content and permalink were read and whose permalink has no ["/status/"]
    in it, taking the identifier raises [IndexError]; it passes that
    handler and reaches the handler of the account, so the entries after it
    are not looked at and the result is what the entries before it gave. *)
Theorem missing_status_marker_ends_scrape :
  forall handle E n before el rest content link collected,
    value (load_timeline handle E (made Clock n)) = Ret (before ++ el :: rest)%list ->
    (List.length before < 5)%nat ->
    tweet_content el = Ret content ->
    tweet_link_href el = Ret (Some link) ->
    PyStr.contains "/status/" link = false ->
    let page := load_timeline handle E (made Clock n) in
    let seen := scrape_entries handle (cutoff_at E n) before [] E (after page) in
    value seen = Ret (collected, None) ->
    let run := get_recent_tweets handle E n in
    (forall el' tweets E' n' e,
        value (extract_tweet handle (cutoff_at E n) el' tweets E' n') = Raise e ->
        value (scrape_entry handle (cutoff_at E n) el' tweets E' n')
        = if isinstance e NoSuchElementException || isinstance e ValueError
          then Ret tweets else Raise e)
    /\ (forall tweets E' n',
          value (extract_tweet handle (cutoff_at E n) el tweets E' n')
          = Raise (Raised IndexError "list index out of range")
          /\ value (scrape_entry handle (cutoff_at E n) el tweets E' n')
             = Raise (Raised IndexError "list index out of range"))
    /\ value run = Ret collected
    /\ emitted run
       = (Log INFO ("Scraping @" ++ handle)
          :: emitted page
          ++ Log DEBUG ("Found "
                        ++ PyStr.of_nat (List.length (firstn 5 (before ++ el :: rest)%list))
                        ++ " tweets")
          :: emitted seen
          ++ [Log ERROR "Scraping error: list index out of range";
              Log INFO ("Found " ++ PyStr.of_nat (List.length collected)
                        ++ " valid tweets")])%list.
Proof.
  intros handle E n before el rest content link collected Hp Hlen Hc Hl Hm page seen Hs run.
  pose proof (entry_outcome_no_marker handle (cutoff_at E n) el content link Hc Hl Hm) as Ho.
  assert (Hentry : forall tweets E' n',
             scrape_entry handle (cutoff_at E n) el tweets E' n'
             = mk_run (Raise index_error) n' []).
  { intros. rewrite scrape_entry_run, Ho. reflexivity. }
  split; [| split].
  - intros el' tweets E' n' e. rewrite scrape_entry_run, extract_tweet_run.
    destruct (entry_outcome handle (cutoff_at E n) el') as [[t |] | e']; try discriminate.
    cbn [value]. intros [= ->]. unfold skips.
    destruct (isinstance e NoSuchElementException || isinstance e ValueError); reflexivity.
  - intros tweets E' n'. rewrite Hentry, extract_tweet_run, Ho. split; reflexivity.
  - assert (Hloop : scrape_entries handle (cutoff_at E n)
                      (firstn 5 (before ++ el :: rest)%list) [] E (after page)
                    = mk_run (Ret (collected, Some index_error)) (after page)
                        (emitted seen ++ [])%list).
    { rewrite (firstn_5_middle before el rest Hlen).
      rewrite (scrape_entries_app _ _ _ _ _ _ _ _ Hs).
      cbn [scrape_entries]. rewrite bind_attempt, Hentry. reflexivity. }
    unfold run.
    rewrite (get_recent_tweets_page handle E n _ collected (Some index_error) Hp).
    + fold page. rewrite Hloop. cbn [value emitted]. rewrite app_nil_r. split; reflexivity.
    + fold page. rewrite Hloop. reflexivity.
Qed.

Lemma missing_status_marker_ends_scrape_witness :
  value (load_timeline "alice" E_bad_permalink (made Clock fresh))
  = Ret ([entry_1; entry_2] ++ entry_without_status :: [entry_4])%list
  /\ (List.length [entry_1; entry_2] < 5)%nat
  /\ PyStr.contains "/status/" "https://nitter.net/alice/i/103" = false
  /\ value (get_recent_tweets "alice" E_bad_permalink fresh)
     = Ret [tweet_at "Buy $XYZ now!!" "101" "alice" 8;
            tweet_at "GM frens, $ABC looks ready" "102" "alice" 10].
Proof.
  split; [reflexivity | split; [simpl; lia | split; [reflexivity |]]].
  refine (proj1 (proj2 (proj2
    (missing_status_marker_ends_scrape "alice" E_bad_permalink fresh
       [entry_1; entry_2] entry_without_status [entry_4]
       "Pinned" "https://nitter.net/alice/i/103"
       [tweet_at "Buy $XYZ now!!" "101" "alice" 8;
        tweet_at "GM frens, $ABC looks ready" "102" "alice" 10]
       eq_refl _ eq_refl eq_refl eq_refl _)))).
  - simpl; lia.
  - vm_compute. reflexivity.
Defined.

(** ** The cycle, step by step *)

(** One tweet of the inner loop, by the outcome of its classification. *)
Lemma classify_and_alert_run handle name t E n :
  let c := is_buy_signal (tweet_text t) E n in
  classify_and_alert handle name t E n =
  match value c with
  | Ret true =>
      match send_message_outcome E (after c SendMessage) with
      | None =>
          mk_run (Ret tt) (made SendMessage (after c))
            (emitted c
             ++ [Log INFO "Buy signal: True";
                 EvSendMessage (GROUP_CHAT_ID E) (alert_message handle name t);
                 Log INFO "Alert sent"])%list
      | Some e =>
          mk_run (Raise e) (made SendMessage (after c))
            (emitted c
             ++ [Log INFO "Buy signal: True";
                 EvSendMessage (GROUP_CHAT_ID E) (alert_message handle name t)])%list
      end
  | Ret false => mk_run (Ret tt) (after c) (emitted c ++ [Log INFO "Buy signal: False"])%list
  | Raise e => mk_run (Raise e) (after c) (emitted c)
  end.
Proof.
  cbv zeta. unfold classify_and_alert. unfold bind at 1.
  generalize (is_buy_signal (tweet_text t) E n). intros c.
  destruct (value c) as [[|] | e]; [| reflexivity | reflexivity].
  unfold log, bot_send_message. rewrite bind_emit, bind_setting.
  rewrite !bind_assoc, bind_emit, bind_assoc, bind_asking.
  destruct (send_message_outcome E (after c SendMessage)) as [e |]; reflexivity.
Qed.

(** One tweet of the inner loop, by the outcome of its classification. *)
Lemma process_tweet_run handle name t E n :
  let c := is_buy_signal (tweet_text t) E n in
  process_tweet handle name t E n =
  match value c with
  | Ret true =>
      mk_run (Ret tt) (made SendMessage (after c))
        (Log INFO ("Tweet @" ++ PyDate.isoformat (tweet_time t))
         :: emitted c
         ++ [Log INFO "Buy signal: True";
             EvSendMessage (GROUP_CHAT_ID E) (alert_message handle name t);
             match send_message_outcome E (after c SendMessage) with
             | None => Log INFO "Alert sent"
             | Some e => Log ERROR ("Processing error: " ++ str_exn e)
             end])%list
  | Ret false =>
      mk_run (Ret tt) (after c)
        (Log INFO ("Tweet @" ++ PyDate.isoformat (tweet_time t))
         :: emitted c ++ [Log INFO "Buy signal: False"])%list
  | Raise e =>
      mk_run (Ret tt) (after c)
        (Log INFO ("Tweet @" ++ PyDate.isoformat (tweet_time t))
         :: emitted c ++ [Log ERROR ("Processing error: " ++ str_exn e)])%list
  end.
Proof.
  cbv zeta. unfold process_tweet, log. rewrite bind_emit.
  unfold try_except. rewrite classify_and_alert_run.
  generalize (is_buy_signal (tweet_text t) E n). intros c.
  destruct (value c) as [[|] | e].
  - destruct (send_message_outcome E (after c SendMessage)) as [e |];
      cbn [value after emitted]; [| reflexivity].
    rewrite isinstance_Exception. cbn [value after emitted].
    rewrite <- app_assoc. reflexivity.
  - reflexivity.
  - cbn [value after emitted]. rewrite isinstance_Exception. reflexivity.
Qed.

Lemma close_run E n :
  close E n =
  mk_run (Ret tt) (made DriverQuit n)
    [EvDriverQuit;
     match driver_quit_outcome E (n DriverQuit) with
     | None => Log DEBUG "WebDriver closed"
     | Some e => Log ERROR ("Close error: " ++ str_exn e)
     end].
Proof.
  unfold close, try_except, driver_quit, log. cbv zeta.
  rewrite !bind_assoc, !bind_emit, !bind_assoc, !bind_asking.
  destruct (driver_quit_outcome E (n DriverQuit)) as [e |]; cbn [may_fail].
  - rewrite bind_raise. cbn [value after emitted]. rewrite isinstance_Exception.
    reflexivity.
  - rewrite bind_ret. reflexivity.
Qed.

(** The [try] / [except] / [finally] around any body: nothing leaves it,
    and the browser is closed once, after the body. *)
Lemma guarded_cycle_run (body : M unit) E n :
  let b := body E n in
  guarded_cycle body E n =
  mk_run (Ret tt) (made DriverQuit (after b))
    (emitted b
     ++ match value b with
        | Ret _ => []
        | Raise e => [Log ERROR ("Cycle error: " ++ str_exn e)]
        end
     ++ [EvDriverQuit;
         match driver_quit_outcome E (after b DriverQuit) with
         | None => Log DEBUG "WebDriver closed"
         | Some e => Log ERROR ("Close error: " ++ str_exn e)
         end;
         Log INFO "Monitoring complete"])%list.
Proof.
  intros b. unfold guarded_cycle, try_finally, try_except, log. fold b.
  destruct (value b) as [[] | e] eqn:Hb.
  - rewrite Hb. unfold bind. rewrite close_run. cbn [value after emitted].
    reflexivity.
  - rewrite isinstance_Exception. cbn [value after emitted].
    unfold bind. rewrite close_run. cbn [value after emitted].
    rewrite <- app_assoc. reflexivity.
Qed.

Lemma TwitterScraper_init_run E n :
  TwitterScraper_init E n =
  match chrome_start E (n ChromeStart) with
  | None => mk_run (Ret tt) (made ChromeStart n) [EvChromeStart; Log INFO "WebDriver initialized"]
  | Some e =>
      mk_run (Raise e) (made ChromeStart n)
        [EvChromeStart; Log ERROR ("WebDriver init failed: " ++ str_exn e)]
  end.
Proof.
  unfold TwitterScraper_init, try_except, webdriver_Chrome, log. cbv zeta.
  rewrite !bind_assoc, !bind_emit, !bind_assoc, !bind_asking.
  destruct (chrome_start E (n ChromeStart)) as [e |]; cbn [may_fail].
  - rewrite bind_raise. cbn [value after emitted]. rewrite isinstance_Exception.
    reflexivity.
  - rewrite bind_ret. reflexivity.
Qed.

(** Nothing in the turn of an account closes the browser. *)
Lemma quiet_quit_check_account account : quiet is_quit (check_account account).
Proof.
  destruct account as [handle name]. unfold check_account, log.
  apply quiet_bind; [apply quiet_emit; reflexivity | intros _].
  apply quiet_bind.
  { apply (quiet_weaken other_than_scraping); [| apply quiet_get_recent_tweets].
    now intros []. }
  intros [| t ts]; [apply quiet_emit; reflexivity |].
  apply quiet_bind; [apply quiet_emit; reflexivity | intros _].
  apply quiet_for_each. intros x. unfold process_tweet, log.
  apply quiet_bind; [apply quiet_emit; reflexivity | intros _].
  apply quiet_try_except.
  - unfold classify_and_alert, bot_send_message, log. apply quiet_bind.
    + apply (quiet_weaken other_than_classifying); [| apply quiet_is_buy_signal].
      now intros [].
    + intros is_buy. quiet_steps.
  - intros e k Hk. handler_cases Hk. apply quiet_emit. reflexivity.
Qed.

Lemma quiet_send_get_recent_tweets handle : quiet is_send (get_recent_tweets handle).
Proof.
  apply (quiet_weaken other_than_scraping); [| apply quiet_get_recent_tweets].
  now intros [].
Qed.

Lemma quiet_send_is_buy_signal text : quiet is_send (is_buy_signal text).
Proof.
  apply (quiet_weaken other_than_classifying); [| apply quiet_is_buy_signal].
  now intros [].
Qed.

Lemma take_prefix (k : nat) (s : string) :
  exists rest, s = (PyStr.take k s ++ rest)%string.
Proof.
  revert s; induction k as [| k IH]; intros s.
  - exists s. now destruct s.
  - destruct s as [| c r]; [now exists ""%string |].
    destruct (IH r) as [rest Hr]. exists rest. simpl. now rewrite <- Hr.
Qed.

Lemma sent_process_tweet handle name t E n :
  sent (emitted (process_tweet handle name t E n))
  = match value (is_buy_signal (tweet_text t) E n) with
    | Ret true => [(GROUP_CHAT_ID E, alert_message handle name t)]
    | _ => []
    end.
Proof.
  pose proof (quiet_send_sent (is_buy_signal (tweet_text t)) E n
                (quiet_send_is_buy_signal _)) as Hq.
  pose proof (process_tweet_run handle name t E n) as Hr. cbv zeta in Hr.
  rewrite Hr. clear Hr. revert Hq.
  generalize (is_buy_signal (tweet_text t) E n). intros c Hq.
  destruct (value c) as [[|] | e]; cbn [emitted];
    change (sent (?x :: ?l)) with (sent [x] ++ sent l)%list;
    rewrite sent_app, Hq; cbn [app]; try reflexivity.
  destruct (send_message_outcome E (after c SendMessage)); reflexivity.
Qed.

Lemma after_process_tweet_raise handle name t E n e :
  value (is_buy_signal (tweet_text t) E n) = Raise e ->
  after (process_tweet handle name t E n) = after (is_buy_signal (tweet_text t) E n).
Proof.
  pose proof (process_tweet_run handle name t E n) as Hr. cbv zeta in Hr.
  rewrite Hr. clear Hr. generalize (is_buy_signal (tweet_text t) E n).
  intros c H. rewrite H. reflexivity.
Qed.

(** An [except Exception] clause that logs: the exception of the body is
    in the log. *)
Lemma logged_by_handler (m : M unit) (prefix : string) E n e :
  value (m E n) = Raise e ->
  In (Log ERROR (prefix ++ str_exn e))
     (emitted (try_except m
                 (fun e => if isinstance e Exception
                           then Some (log ERROR (prefix ++ str_exn e))
                           else None) E n)).
Proof.
  unfold try_except. generalize (m E n). intros r H.
  rewrite H, isinstance_Exception. cbn [emitted]. apply in_or_app. right. now left.
Qed.

Lemma for_each_process_cons handle name t ts E n :
  for_each (t :: ts) (process_tweet handle name) E n =
  mk_run (value (for_each ts (process_tweet handle name) E
                   (after (process_tweet handle name t E n))))
         (after (for_each ts (process_tweet handle name) E
                   (after (process_tweet handle name t E n))))
         (emitted (process_tweet handle name t E n)
          ++ emitted (for_each ts (process_tweet handle name) E
                        (after (process_tweet handle name t E n))))%list.
Proof.
  cbn [for_each]. unfold bind.
  destruct (safe_process_tweet handle name t E n) as [[] ->]. reflexivity.
Qed.

Lemma sent_log lvl msg l : sent (Log lvl msg :: l) = sent l.
Proof. reflexivity. Qed.

Lemma sent_for_each_process handle name t ts E n :
  sent (emitted (for_each (t :: ts) (process_tweet handle name) E n))
  = (sent (emitted (process_tweet handle name t E n))
     ++ sent (emitted (for_each ts (process_tweet handle name) E
                         (after (process_tweet handle name t E n)))))%list.
Proof. rewrite for_each_process_cons. cbn [emitted]. apply sent_app. Qed.

(** The messages of an account's turn are those of the loop over its
    tweets. *)
Lemma sent_check_account handle name tweets E n :
  value (get_recent_tweets handle E n) = Ret tweets ->
  sent (emitted (check_account (handle, name) E n))
  = sent (emitted (for_each tweets (process_tweet handle name) E
                     (after (get_recent_tweets handle E n)))).
Proof.
  pose proof (quiet_send_sent (get_recent_tweets handle) E n
                (quiet_send_get_recent_tweets handle)) as Hq.
  unfold check_account, log. rewrite bind_emit. cbn [emitted]. rewrite sent_log.
  unfold bind at 1. revert Hq. generalize (get_recent_tweets handle E n).
  intros g Hq Hs. rewrite Hs. cbn [emitted]. rewrite sent_app, Hq. cbn [app].
  destruct tweets as [| t ts]; [reflexivity |].
  rewrite bind_emit. cbn [emitted]. apply sent_log.
Qed.

(** ** C9: the alert *)

(** C9.  For a tweet that is classified [True], the turn of the loop sends
    one message, to [GROUP_CHAT_ID]; in it are the alert marker, the
    display name, the tweet's time as [%Y-%m-%d %H:%M UTC], the first 200
    characters of the text at most, followed by ["..."], and the link made
    of the handle and the tweet's identifier. *)
Theorem positive_classification_sends_one_alert :
  forall handle name tweet E n,
    value (is_buy_signal (tweet_text tweet) E n) = Ret true ->
    let run := process_tweet handle name tweet E n in
    let message := alert_message handle name tweet in
    sent (emitted run) = [(GROUP_CHAT_ID E, message)]
    /\ value run = Ret tt
    /\ occurs alert_marker message
    /\ occurs name message
    /\ occurs (PyDate.strftime_alert (tweet_time tweet)) message
    /\ occurs (PyStr.take 200 (tweet_text tweet) ++ "...") message
    /\ (String.length (PyStr.take 200 (tweet_text tweet)) <= 200)%nat
    /\ (exists rest, tweet_text tweet = (PyStr.take 200 (tweet_text tweet) ++ rest)%string)
    /\ occurs ("https://twitter.com/" ++ handle ++ "/status/" ++ tweet_id tweet) message.
Proof.
  intros handle name tweet E n Hyes run message.
  split; [| split].
  - unfold run. rewrite sent_process_tweet, Hyes. reflexivity.
  - destruct (safe_process_tweet handle name tweet E n) as [[] H]. exact H.
  - unfold message, alert_message, occurs.
    split; [| split; [| split; [| split; [| split; [| split]]]]].
    + exists ""%string. eexists. reflexivity.
    + exists (alert_marker ++ " BUY ALERT from ")%string. eexists.
      rewrite !append_assoc. reflexivity.
    + generalize (PyDate.strftime_alert (tweet_time tweet)) as stamp.
      generalize (PyStr.take 200 (tweet_text tweet)) as shown. intros shown stamp.
      exists (alert_marker ++ " BUY ALERT from " ++ name ++ newline ++ date_marker ++ " ")%string.
      eexists. rewrite !append_assoc. reflexivity.
    + generalize (PyDate.strftime_alert (tweet_time tweet)) as stamp.
      generalize (PyStr.take 200 (tweet_text tweet)) as shown. intros shown stamp.
      exists (alert_marker ++ " BUY ALERT from " ++ name ++ newline ++ date_marker ++ " "
              ++ stamp ++ newline ++ text_marker ++ " ")%string.
      eexists. rewrite !append_assoc. reflexivity.
    + apply length_take.
    + apply take_prefix.
    + generalize (PyDate.strftime_alert (tweet_time tweet)) as stamp.
      generalize (PyStr.take 200 (tweet_text tweet)) as shown. intros shown stamp.
      exists (alert_marker ++ " BUY ALERT from " ++ name ++ newline ++ date_marker ++ " "
              ++ stamp ++ newline ++ text_marker ++ " " ++ shown ++ "..." ++ newline
              ++ link_marker ++ " ")%string.
      exists ""%string. rewrite !append_assoc, !append_empty_r. reflexivity.
Qed.

Lemma positive_classification_sends_one_alert_witness :
  value (is_buy_signal (tweet_text sample_tweet) (E_answers "YES") fresh) = Ret true
  /\ sent (emitted (process_tweet "alice" "Alice" sample_tweet (E_answers "YES") fresh))
     = [("-1001"%string, alert_message "alice" "Alice" sample_tweet)].
Proof.
  split; [reflexivity |].
  exact (proj1 (positive_classification_sends_one_alert "alice" "Alice" sample_tweet
                  (E_answers "YES") fresh eq_refl)).
Defined.

(** ** C7: one tweet's failure does not stop the others *)

Lemma bind_log {B} lvl msg (k : unit -> M B) E n :
  bind (log lvl msg) k E n
  = mk_run (value (k tt E n)) (after (k tt E n)) (Log lvl msg :: emitted (k tt E n)).
Proof. reflexivity. Qed.

Lemma process_tweet_logs_failure handle name t E n e :
  value (classify_and_alert handle name t E n) = Raise e ->
  In (Log ERROR ("Processing error: " ++ str_exn e))
     (emitted (process_tweet handle name t E n)).
Proof.
  intros H.
  pose proof (logged_by_handler (classify_and_alert handle name t)
                "Processing error: " E n e H) as Hin.
  revert Hin. unfold process_tweet. rewrite bind_log.
  generalize (try_except (classify_and_alert handle name t)
                (fun e0 => if isinstance e0 Exception
                           then Some (log ERROR ("Processing error: " ++ str_exn e0))
                           else None) E n).
  intros r Hin. now right.
Qed.

Lemma one_alert_for_second_tweet handle name E n t1 t2 e :
  value (get_recent_tweets handle E n) = Ret [t1; t2] ->
  value (is_buy_signal (tweet_text t1) E (after (get_recent_tweets handle E n))) = Raise e ->
  value (is_buy_signal (tweet_text t2) E
           (after (is_buy_signal (tweet_text t1) E (after (get_recent_tweets handle E n)))))
  = Ret true ->
  sent (emitted (check_account (handle, name) E n))
  = [(GROUP_CHAT_ID E, alert_message handle name t2)].
Proof.
  intros Hs H1 H2.
  rewrite (sent_check_account handle name _ E n Hs).
  rewrite !sent_for_each_process, !sent_process_tweet.
  rewrite H1, (after_process_tweet_raise handle name t1 E _ e H1), H2.
  reflexivity.
Qed.

(** C7.  A turn of the loop over the tweets never raises: an exception of
    the classification or of the sending is logged, and the loop goes on
    with the next tweet.  When an account gives two tweets, the
    classification of the first raises and the second is classified
    [True], one alert is sent, the one for the second tweet. *)
Theorem item_failures_do_not_stop_the_loop :
  forall handle name E n,
    (forall t, value (process_tweet handle name t E n) = Ret tt)
    /\ (forall t e,
          value (classify_and_alert handle name t E n) = Raise e ->
          In (Log ERROR ("Processing error: " ++ str_exn e))
             (emitted (process_tweet handle name t E n)))
    /\ (forall t ts,
          emitted (for_each (t :: ts) (process_tweet handle name) E n)
          = (emitted (process_tweet handle name t E n)
             ++ emitted (for_each ts (process_tweet handle name) E
                           (after (process_tweet handle name t E n))))%list)
    /\ (forall t1 t2 e,
          value (get_recent_tweets handle E n) = Ret [t1; t2] ->
          value (is_buy_signal (tweet_text t1) E (after (get_recent_tweets handle E n)))
          = Raise e ->
          value (is_buy_signal (tweet_text t2) E
                   (after (is_buy_signal (tweet_text t1) E
                             (after (get_recent_tweets handle E n)))))
          = Ret true ->
          value (check_account (handle, name) E n) = Ret tt
          /\ sent (emitted (check_account (handle, name) E n))
             = [(GROUP_CHAT_ID E, alert_message handle name t2)]).
Proof.
  intros handle name E n. split; [| split; [| split]].
  - intros t. destruct (safe_process_tweet handle name t E n) as [[] H]. exact H.
  - intros t e. apply process_tweet_logs_failure.
  - intros t ts. now rewrite for_each_process_cons.
  - intros t1 t2 e Hs H1 H2. split.
    + destruct (safe_check_account (handle, name) E n) as [[] H]. exact H.
    + exact (one_alert_for_second_tweet handle name E n t1 t2 e Hs H1 H2).
Qed.

Lemma item_failures_do_not_stop_the_loop_witness :
  value (get_recent_tweets "bob" E_two_items fresh)
  = Ret [tweet_at "Buy $XYZ now!!" "101" "bob" 8;
         tweet_at "GM frens, $ABC looks ready" "102" "bob" 10]
  /\ sent (emitted (check_account ("bob"%string, "Bob"%string) E_two_items fresh))
     = [("-1001"%string,
         alert_message "bob" "Bob" (tweet_at "GM frens, $ABC looks ready" "102" "bob" 10))].
Proof.
  split; [vm_compute; reflexivity |].
  refine (proj2 (proj2 (proj2 (proj2
    (item_failures_do_not_stop_the_loop "bob" "Bob" E_two_items fresh)))
      (tweet_at "Buy $XYZ now!!" "101" "bob" 8)
      (tweet_at "GM frens, $ABC looks ready" "102" "bob" 10)
      read_failure _ _ _));
    vm_compute; reflexivity.
Defined.

(** ** C8: the end of a cycle *)

Lemma check_influencers_unfold :
  check_influencers
  = (log INFO "Starting monitoring cycle" ;;
     TwitterScraper_init ;;
     guarded_cycle (for_each INFLUENCERS check_account)).
Proof. reflexivity. Qed.

(** A cycle around any body, when Chrome starts. *)
Lemma started_cycle_run (body : M unit) E n :
  chrome_start E (n ChromeStart) = None ->
  (log INFO "Starting monitoring cycle" ;; TwitterScraper_init ;; guarded_cycle body) E n
  = mk_run (Ret tt) (made DriverQuit (after (body E (made ChromeStart n))))
      (Log INFO "Starting monitoring cycle"
       :: EvChromeStart
       :: Log INFO "WebDriver initialized"
       :: emitted (guarded_cycle body E (made ChromeStart n)))%list.
Proof.
  intros Hc. unfold log. rewrite bind_emit. unfold bind.
  rewrite TwitterScraper_init_run, Hc. cbn [value after emitted].
  rewrite guarded_cycle_run. reflexivity.
Qed.

Lemma failed_start_run (body : M unit) E n e :
  chrome_start E (n ChromeStart) = Some e ->
  (log INFO "Starting monitoring cycle" ;; TwitterScraper_init ;; guarded_cycle body) E n
  = mk_run (Raise e) (made ChromeStart n)
      [Log INFO "Starting monitoring cycle"; EvChromeStart;
       Log ERROR ("WebDriver init failed: " ++ str_exn e)].
Proof.
  intros Hc. unfold log. rewrite bind_emit. unfold bind.
  rewrite TwitterScraper_init_run, Hc. reflexivity.
Qed.

Lemma guarded_cycle_quits (body : M unit) E n :
  count is_quit (emitted (body E n)) = O ->
  count is_quit (emitted (guarded_cycle body E n)) = 1%nat.
Proof.
  rewrite guarded_cycle_run. cbv zeta. generalize (body E n). intros b Hq.
  cbn [emitted]. rewrite !count_app, Hq.
  destruct (value b); destruct (driver_quit_outcome E (after b DriverQuit)); reflexivity.
Qed.

(** C8, as the code has it.  Once the scraper is constructed, the cycle
    returns normally whatever happens in it: around any body, the [try]
    logs the exception that leaves the body and closes the browser once,
    after the body; and in [check_influencers] the browser is closed
    exactly once. *)
Theorem cycle_closes_browser_once :
  forall E n,
    chrome_start E (n ChromeStart) = None ->
    (forall body n',
        value (guarded_cycle body E n') = Ret tt
        /\ exists tail,
             emitted (guarded_cycle body E n') = (emitted (body E n') ++ tail)%list
             /\ count is_quit tail = 1%nat
             /\ (forall e, value (body E n') = Raise e ->
                   In (Log ERROR ("Cycle error: " ++ str_exn e)) tail))
    /\ value (check_influencers E n) = Ret tt
    /\ count is_quit (emitted (check_influencers E n)) = 1%nat.
Proof.
  intros E n Hc. split.
  - intros body n'. rewrite guarded_cycle_run. cbv zeta.
    generalize (body E n'). intros b. cbn [value emitted].
    split; [reflexivity |]. eexists. split; [reflexivity | split].
    + rewrite count_app.
      destruct (value b); destruct (driver_quit_outcome E (after b DriverQuit));
        reflexivity.
    + intros e ->. now left.
  - rewrite check_influencers_unfold, (started_cycle_run _ E n Hc).
    assert (Hq : count is_quit
                   (emitted (guarded_cycle (for_each INFLUENCERS check_account) E
                               (made ChromeStart n))) = 1%nat).
    { apply guarded_cycle_quits, quiet_count, quiet_for_each.
      intros x. apply quiet_quit_check_account. }
    revert Hq.
    generalize (guarded_cycle (for_each INFLUENCERS check_account) E (made ChromeStart n)).
    generalize (for_each INFLUENCERS check_account E (made ChromeStart n)).
    intros b g Hq. split; [reflexivity |]. exact Hq.
Qed.

Lemma cycle_closes_browser_once_witness :
  chrome_start (E_answers "NO") (fresh ChromeStart) = None
  /\ value (check_influencers (E_answers "NO") fresh) = Ret tt
  /\ count is_quit (emitted (check_influencers (E_answers "NO") fresh)) = 1%nat.
Proof.
  split; [reflexivity |].
  exact (proj2 (cycle_closes_browser_once (E_answers "NO") fresh eq_refl)).
Defined.

(** The claim fails when Chrome does not start: the exception of the
    constructor leaves [check_influencers], and nothing is closed. *)
Lemma failed_start_leaves_check_influencers :
  value (check_influencers E_no_chrome fresh) = Raise chrome_failure
  /\ count is_quit (emitted (check_influencers E_no_chrome fresh)) = O.
Proof.
  rewrite check_influencers_unfold.
  rewrite (failed_start_run _ E_no_chrome fresh chrome_failure eq_refl).
  split; reflexivity.
Qed.

(** ** The primitives and the pipeline on sample values *)

Example strip_upper_sample : PyStr.upper (PyStr.strip " yes ") = "YES"%string.
Proof. reflexivity. Qed.

Example split_permalink_sample :
  PyStr.split "https://nitter.net/alice/status/101#m" "/status/"
  = ["https://nitter.net/alice"; "101#m"]%string
  /\ PyStr.split "101#m" "#" = ["101"; "m"]%string.
Proof. split; reflexivity. Qed.

Example replace_sample : PyStr.replace "10:08 PM UTC" " UTC" "" = "10:08 PM"%string.
Proof. reflexivity. Qed.

Example strptime_sample :
  option_map PyDate.isoformat
    (Strptime.strptime ("Nov 14, 2023 " ++ Strptime.separator ++ " 10:08 PM"))
  = Some "2023-11-14T22:08:00"%string
  /\ option_map PyDate.isoformat
       (Strptime.strptime ("Dec 31, 2023 " ++ Strptime.separator ++ " 12:05 AM"))
     = Some "2023-12-31T00:05:00"%string
  /\ Strptime.strptime ("Feb 30, 2023 " ++ Strptime.separator ++ " 10:08 PM") = None
  /\ Strptime.strptime "yesterday" = None.
Proof. repeat split; vm_compute; reflexivity. Qed.

Example now_sample :
  PyDate.isoformat (PyDate.of_unix_micros sample_now) = "2023-11-14T22:13:20+00:00"%string.
Proof. vm_compute. reflexivity. Qed.

(** One hour before 00:30 on New Year's Day. *)
Example cutoff_sample :
  PyDate.isoformat
    (PyDate.sub (PyDate.of_unix_micros 1704069000000000) (PyDate.timedelta_hours 1))
  = "2023-12-31T23:30:00+00:00"%string.
Proof. vm_compute. reflexivity. Qed.

Example wait_sample :
  map is_buy_signal_wait [1; 2; 3; 4; 5; 6]%nat = [2; 2; 4; 8; 15; 15].
Proof. reflexivity. Qed.

Example isinstance_sample :
  isinstance (Raised ConnectTimeout "") TimeoutException = true
  /\ isinstance (Raised JSONDecodeError "") ValueError = true
  /\ isinstance read_failure RequestError = true
  /\ isinstance (Raised gaierror "") OSError = true
  /\ isinstance (RetryError connect_failure) RequestError = false.
Proof. repeat split; reflexivity. Qed.

(** The account "alice" has one tweet, posted five minutes ago, and the
    endpoint answers YES: one message is sent. *)
Example one_recent_tweet_one_alert :
  value (get_recent_tweets "alice" E_one_item fresh)
  = Ret [tweet_at "Buy $XYZ now!!" "101" "alice" 8]
  /\ sent (emitted (check_account ("alice"%string, "Alice"%string) E_one_item fresh))
     = [("-1001"%string,
         (alert_marker ++ " BUY ALERT from Alice" ++ newline
          ++ date_marker ++ " 2023-11-14 22:08 UTC" ++ newline
          ++ text_marker ++ " Buy $XYZ now!!..." ++ newline
          ++ link_marker ++ " https://twitter.com/alice/status/101")%string)].
Proof. split; vm_compute; reflexivity. Qed.

(** A whole cycle over [INFLUENCERS] with nothing on any page: twelve
    pages are loaded, nothing is sent, the browser is closed once. *)
Example quiet_cycle :
  let run := check_influencers (E_answers "NO") fresh in
  value run = Ret tt
  /\ count (fun ev => match ev with EvDriverGet _ => true | _ => false end) (emitted run)
     = 12%nat
  /\ sent (emitted run) = []
  /\ count is_quit (emitted run) = 1%nat.
Proof. repeat split; vm_compute; reflexivity. Qed.

(** ** More on the scraper *)

Lemma scrape_entries_collected handle cutoff els :
  forall tweets E n,
    value (scrape_entries handle cutoff els tweets E n)
    = Ret ((tweets ++ fst (collected handle cutoff els))%list,
           snd (collected handle cutoff els)).
Proof.
  induction els as [| el els IH]; intros tweets E n.
  - cbn [scrape_entries collected fst snd ret value]. now rewrite app_nil_r.
  - cbn [scrape_entries collected]. rewrite bind_attempt, scrape_entry_run.
    cbn [value].
    destruct (entry_outcome handle cutoff el) as [[t |] | e]; cbn [value after].
    + rewrite IH. cbn [fst snd]. now rewrite <- app_assoc.
    + apply IH.
    + destruct (skips e); cbn [value after]; [apply IH |].
      cbn [fst snd ret value]. now rewrite app_nil_r.
Qed.

Lemma collected_passed_over handle cutoff before el rest :
  passed_over handle cutoff el ->
  collected handle cutoff (before ++ el :: rest)%list
  = collected handle cutoff (before ++ rest)%list.
Proof.
  intros Hp. induction before as [| b before IH]; cbn [app collected].
  - destruct Hp as [-> | [e [-> ->]]]; reflexivity.
  - rewrite IH. reflexivity.
Qed.

(** X1.  When the page loads, [get_recent_tweets] returns the recent
    tweets of its first five entries, in the order of the page, up to the
    first entry that raises something other than a missing element or an
    unparsable date; entries are neither reordered nor repeated. *)
Theorem get_recent_tweets_in_page_order :
  forall handle E n found,
    value (load_timeline handle E (made Clock n)) = Ret found ->
    value (get_recent_tweets handle E n)
    = Ret (fst (collected handle (cutoff_at E n) (firstn 5 found))).
Proof.
  intros handle E n found Hp.
  rewrite (get_recent_tweets_page handle E n found _ _ Hp
             (scrape_entries_collected _ _ _ _ _ _)).
  reflexivity.
Qed.

Lemma get_recent_tweets_in_page_order_witness :
  value (load_timeline "alice" E_bad_permalink (made Clock fresh))
  = Ret [entry_1; entry_2; entry_without_status; entry_4]
  /\ value (get_recent_tweets "alice" E_bad_permalink fresh)
     = Ret (fst (collected "alice" (cutoff_at E_bad_permalink fresh)
                   (firstn 5 [entry_1; entry_2; entry_without_status; entry_4]))).
Proof.
  split; [reflexivity |].
  exact (get_recent_tweets_in_page_order "alice" E_bad_permalink fresh _ eq_refl).
Defined.

(** X2.  An entry that is too old, or that lacks an element or has a date
    that does not parse, changes nothing for the other entries: the loop
    gives the same list, and ends the same way, as without it. *)
Theorem passed_over_entry_changes_nothing :
  forall handle cutoff before el rest tweets E n,
    passed_over handle cutoff el ->
    value (scrape_entries handle cutoff (before ++ el :: rest)%list tweets E n)
    = value (scrape_entries handle cutoff (before ++ rest)%list tweets E n).
Proof.
  intros handle cutoff before el rest tweets E n Hp.
  now rewrite !scrape_entries_collected, (collected_passed_over _ _ _ _ _ Hp).
Qed.

Lemma passed_over_entry_changes_nothing_witness :
  passed_over "alice" (cutoff_at E_bad_permalink fresh) entry_without_content
  /\ value (scrape_entries "alice" (cutoff_at E_bad_permalink fresh)
              ([entry_1] ++ entry_without_content :: [entry_2])%list [] E_bad_permalink fresh)
     = value (scrape_entries "alice" (cutoff_at E_bad_permalink fresh)
                ([entry_1] ++ [entry_2])%list [] E_bad_permalink fresh).
Proof.
  assert (H : passed_over "alice" (cutoff_at E_bad_permalink fresh) entry_without_content).
  { right. eexists. split; reflexivity. }
  split; [exact H |].
  exact (passed_over_entry_changes_nothing "alice" _ [entry_1] entry_without_content
           [entry_2] [] E_bad_permalink fresh H).
Defined.

(** ** The identifier of a tweet *)

Lemma startswith_app (p s : string) : PyStr.startswith p (p ++ s) = true.
Proof. apply startswith_spec. now exists s. Qed.

Lemma contains_suffix (sub a s : string) :
  PyStr.contains sub (a ++ s) = false -> PyStr.contains sub s = false.
Proof.
  induction a as [| c a IH]; [easy |]. cbn [append PyStr.contains].
  intros H. apply orb_false_iff in H as [_ H]. auto.
Qed.

(** Passing over the rest of a separator that was found. *)
Lemma split_from_skip (sep x b cur : string) :
  PyStr.split_from sep (x ++ b) (String.length x) cur = PyStr.split_from sep b 0 cur.
Proof. induction x as [| c x IH]; [reflexivity | exact IH]. Qed.

(** The first piece of a split, when the separator does not start earlier. *)
Lemma split_from_first (sep a b cur : string) :
  sep <> ""%string ->
  (forall a1 c a2, a = (a1 ++ String c a2)%string ->
                   PyStr.startswith sep (String c a2 ++ sep ++ b) = false) ->
  PyStr.split_from sep (a ++ sep ++ b) 0 cur
  = (cur ++ a)%string :: PyStr.split_from sep b 0 "".
Proof.
  intros Hsep. revert cur. induction a as [| c a IH]; intros cur Hno.
  - destruct sep as [| c0 sep']; [easy |].
    pose proof (startswith_app (String c0 sep') b) as Hst.
    cbn [append] in Hst |- *. cbn [PyStr.split_from]. rewrite Hst.
    rewrite append_empty_r. f_equal.
    replace (String.length (String c0 sep') - 1)%nat with (String.length sep')
      by (cbn [String.length]; lia).
    apply split_from_skip.
  - pose proof (Hno ""%string c a eq_refl) as H0.
    cbn [append] in H0 |- *. cbn [PyStr.split_from]. rewrite H0.
    rewrite IH.
    + now rewrite append_assoc.
    + intros a1 c' a2 ->. apply (Hno (String c a1) c' a2). reflexivity.
Qed.

Lemma no_early_hash (id : string) (b : string) :
  PyStr.contains "#" id = false ->
  forall a1 c a2, id = (a1 ++ String c a2)%string ->
                  PyStr.startswith "#" (String c a2 ++ "#" ++ b) = false.
Proof.
  intros H a1 c a2 ->. apply contains_suffix in H.
  cbn [PyStr.contains] in H. apply orb_false_iff in H as [H _].
  cbn [PyStr.startswith] in H |- *. cbn [append PyStr.startswith].
  destruct (Ascii.eqb "#" c); [discriminate H | reflexivity].
Qed.

Lemma no_early_status (prefix : string) (b : string) :
  PyStr.contains "/s" prefix = false ->
  forall a1 c a2, prefix = (a1 ++ String c a2)%string ->
                  PyStr.startswith "/status/" (String c a2 ++ "/status/" ++ b) = false.
Proof.
  intros H a1 c a2 ->. apply contains_suffix in H.
  cbn [PyStr.contains] in H. apply orb_false_iff in H as [H _].
  cbn [append]. cbn [PyStr.startswith] in H |- *.
  destruct (Ascii.eqb "/" c); [| reflexivity]. cbn [andb] in H |- *.
  destruct a2 as [| d a2]; [reflexivity |].
  cbn [append]. destruct (Ascii.eqb "s" d); [discriminate H | reflexivity].
Qed.

(** The part of a permalink between ["/status/"] and ["#"]. *)
Lemma status_id_of_permalink (prefix id tail : string) :
  PyStr.contains "/s" prefix = false ->
  PyStr.contains "/status/" (id ++ tail) = false ->
  PyStr.contains "#" id = false ->
  tail = ""%string \/ (exists frag, tail = ("#" ++ frag)%string) ->
  exists pieces more,
    PyStr.split (prefix ++ "/status/" ++ id ++ tail) "/status/" = prefix :: pieces
    /\ nth_error (prefix :: pieces) 1 = Some (id ++ tail)%string
    /\ PyStr.split (id ++ tail) "#" = id :: more.
Proof.
  intros Hp Hs Hh Ht.
  exists [(id ++ tail)%string].
  assert (Hsplit : PyStr.split (prefix ++ "/status/" ++ id ++ tail) "/status/"
                   = [prefix; (id ++ tail)%string]).
  { unfold PyStr.split. rewrite split_from_first.
    - f_equal. fold (PyStr.split (id ++ tail) "/status/"). now apply split_absent.
    - discriminate.
    - now apply no_early_status. }
  destruct Ht as [-> | [frag ->]].
  - exists []. rewrite append_empty_r in *. repeat split; [exact Hsplit |].
    now apply split_absent.
  - exists (PyStr.split_from "#" frag 0 ""). repeat split; [exact Hsplit |].
    unfold PyStr.split. rewrite split_from_first; [reflexivity | discriminate |].
    now apply no_early_hash.
Qed.

(** X3.  For an entry whose permalink is [prefix/status/id] or
    [prefix/status/id#fragment] (no ["/s"] in the prefix, no ["#"] in the
    identifier, no second ["/status/"]), the tweet that is kept has [id] as
    its identifier. *)
Theorem tweet_id_of_permalink :
  forall handle cutoff el prefix id tail t,
    tweet_link_href el = Ret (Some (prefix ++ "/status/" ++ id ++ tail)%string) ->
    PyStr.contains "/s" prefix = false ->
    PyStr.contains "/status/" (id ++ tail) = false ->
    PyStr.contains "#" id = false ->
    tail = ""%string \/ (exists frag, tail = ("#" ++ frag)%string) ->
    entry_outcome handle cutoff el = Ret (Some t) ->
    tweet_id t = id.
Proof.
  intros handle cutoff el prefix id tail t Hl Hp Hs Hh Ht.
  destruct (status_id_of_permalink prefix id tail Hp Hs Hh Ht)
    as (pieces & more & H1 & H2 & H3).
  unfold entry_outcome. rewrite Hl.
  destruct (tweet_content el) as [content | ?]; [| discriminate].
  rewrite H1, H2, H3. cbn [nth_error].
  destruct (tweet_date_title el) as [[date_str |] | ?]; try discriminate.
  destruct (Strptime.strptime _) as [d |]; [| discriminate].
  cbv zeta. destruct (PyDate.gt _ cutoff); [| discriminate].
  intros H.
  assert (Ht' : mk_tweet (PyStr.take 500 content) id handle
                  (PyDate.replace_tzinfo d (Some timezone_utc)) = t) by congruence.
  now rewrite <- Ht'.
Qed.

Lemma tweet_id_of_permalink_witness :
  entry_outcome "alice" (cutoff_at E_bad_permalink fresh) entry_1
  = Ret (Some (tweet_at "Buy $XYZ now!!" "101" "alice" 8))
  /\ tweet_id (tweet_at "Buy $XYZ now!!" "101" "alice" 8) = "101"%string.
Proof.
  assert (H : entry_outcome "alice" (cutoff_at E_bad_permalink fresh) entry_1
              = Ret (Some (tweet_at "Buy $XYZ now!!" "101" "alice" 8)))
    by (vm_compute; reflexivity).
  split; [exact H |].
  refine (tweet_id_of_permalink "alice" (cutoff_at E_bad_permalink fresh) entry_1
            "https://nitter.net/alice" "101" "#m" _ eq_refl eq_refl eq_refl eq_refl _ H).
  right. now exists "m"%string.
Defined.

(** ** More on the classifier *)

Lemma length_append (a b : string) :
  String.length (a ++ b) = (String.length a + String.length b)%nat.
Proof. induction a as [| c a IH]; simpl; [reflexivity | now rewrite IH]. Qed.

Lemma take_short (k : nat) (s : string) :
  (String.length s <= k)%nat -> PyStr.take k s = s.
Proof.
  revert s; induction k as [| k IH]; intros [| c r]; simpl; intros H;
    try reflexivity; try lia.
  rewrite IH; [reflexivity | lia].
Qed.

Lemma take_take (k : nat) (s : string) : PyStr.take k (PyStr.take k s) = PyStr.take k s.
Proof. apply take_short, length_take. Qed.

Lemma length_create_prompt (text : string) :
  (String.length (create_prompt text) <= 779)%nat.
Proof.
  unfold create_prompt. pose proof (length_take 500 text) as H.
  revert H. generalize (PyStr.take 500 text). intros shown H.
  rewrite !length_append. cbn [String.length]. lia.
Qed.

(** X4.  The prompt holds the first 500 characters of the text and
    nothing of the rest: two texts that agree on them give the same
    prompt; a text of at most 500 characters is in the prompt whole; and
    the prompt is never longer than 779 characters. *)
Theorem create_prompt_is_bounded :
  forall text,
    (forall text', PyStr.take 500 text = PyStr.take 500 text' ->
                   create_prompt text = create_prompt text')
    /\ create_prompt (PyStr.take 500 text) = create_prompt text
    /\ ((String.length text <= 500)%nat -> occurs text (create_prompt text))
    /\ (String.length (create_prompt text) <= 779)%nat.
Proof.
  intros text. split; [| split; [| split]].
  - intros text' H. unfold create_prompt. now rewrite H.
  - unfold create_prompt. now rewrite take_take.
  - intros H. unfold create_prompt, occurs. rewrite (take_short 500 text H).
    exists ("<|begin_of_text|>"
            ++ "<|start_header_id|>system<|end_header_id|>"
            ++ "Analyze if this tweet explicitly recommends buying cryptocurrency. "
            ++ "Respond ONLY with 'YES' or 'NO'.<|eot_id|>"
            ++ "<|start_header_id|>user<|end_header_id|>")%string.
    exists ("<|eot_id|>" ++ "<|start_header_id|>assistant<|end_header_id|>")%string.
    generalize text. intros t. rewrite !append_assoc. reflexivity.
  - apply length_create_prompt.
Qed.

(** *** The answer *)










(** *** When the answer is True *)

Lemma read_response_after r E n : after (read_response r E n) = n.
Proof.
  unfold read_response, response_json, dict_get, strip_upper, no_attribute, log.
  destruct (status_code r =? 200).
  - destruct (body_json r) as [v |]; [| reflexivity].
    rewrite bind_ret.
    destruct v as [| | | | [| first rest] |]; try reflexivity.
    destruct first as [| | | | | members]; try reflexivity.
    rewrite bind_ret.
    destruct (lookup "generated_text" members) as [[| | | s | |] |]; reflexivity.
  - rewrite bind_emit. cbn [after].
    destruct (status_code r =? 401); [| destruct (status_code r =? 404)]; reflexivity.
Qed.

Lemma read_response_true r E n :
  value (read_response r E n) = Ret true <-> says_yes r.
Proof.
  unfold says_yes. split.
  - intros H. destruct (Z.eq_dec (status_code r) 200) as [Hs | Hs].
    + split; [exact Hs |]. destruct (body_json r) as [v |] eqn:Hb.
      * destruct v as [| | | | [| first rest] |];
          try (destruct (read_response_bad_shape r _ E n Hs Hb) as [Hv _];
               [intros ? ? ?; discriminate | rewrite Hv in H; discriminate]).
        pose proof (read_response_list r first rest E n Hs Hb) as Hl.
        destruct (generated_text first) as [s |] eqn:Hg.
        -- exists first, rest, s. repeat split; congruence.
        -- destruct Hl as [m Hm]. rewrite Hm in H. discriminate.
      * destruct (read_response_not_json r E n Hs Hb) as [m [Hm _]].
        rewrite Hm in H. discriminate.
    + destruct (read_response_other_status r E n Hs) as [Hv _].
      rewrite Hv in H. discriminate.
  - intros (Hs & first & rest & s & Hb & Hg & Hy).
    pose proof (read_response_list r first rest E n Hs Hb) as Hl.
    rewrite Hg in Hl. now rewrite Hl, Hy.
Qed.

(** One attempt: when it answers True, and where its counters are after
    it. *)
Lemma is_buy_signal_wrapped_true text E n :
  value (is_buy_signal_wrapped text E n) = Ret true ->
  open_connection_outcome E (n OpenConnection) = None
  /\ exists r, post_outcome E (n Post) = Ret r /\ says_yes r.
Proof.
  destruct (open_connection_outcome E (n OpenConnection)) as [e |] eqn:Ho.
  - unfold is_buy_signal_wrapped, bind. rewrite check_network_connection_run, Ho.
    destruct (isinstance e gaierror || isinstance e OSError); discriminate.
  - rewrite (is_buy_signal_wrapped_reachable text E n Ho). cbv zeta.
    rewrite request_and_read_run.
    change (made OpenConnection n Post) with (n Post).
    destruct (post_outcome E (n Post)) as [r | e]; cbv zeta; cbn [value].
    + destruct (value (read_response r E (made Post (made OpenConnection n))))
        as [b | e] eqn:Hv.
      * cbn [value]. intros [= ->]. split; [reflexivity |]. exists r.
        split; [reflexivity |]. exact (proj1 (read_response_true r E _) Hv).
      * rewrite (read_response_raises r E _ e Hv). discriminate.
    + destruct (isinstance e RequestError); discriminate.
Qed.

Lemma is_buy_signal_wrapped_posts text E n :
  after (is_buy_signal_wrapped text E n) Post = n Post
  \/ after (is_buy_signal_wrapped text E n) Post = S (n Post).
Proof.
  destruct (open_connection_outcome E (n OpenConnection)) as [e |] eqn:Ho.
  - left. unfold is_buy_signal_wrapped, bind. rewrite check_network_connection_run, Ho.
    destruct (isinstance e gaierror || isinstance e OSError); reflexivity.
  - right. rewrite (is_buy_signal_wrapped_reachable text E n Ho). cbv zeta.
    rewrite request_and_read_run.
    change (made OpenConnection n Post) with (n Post).
    destruct (post_outcome E (n Post)) as [r | e]; cbv zeta; cbn [value after].
    + pose proof (read_response_after r E (made Post (made OpenConnection n))) as Ha.
      destruct (value (read_response r E (made Post (made OpenConnection n))));
        [| destruct (isinstance _ RequestError)]; cbn [after]; now rewrite Ha.
    + destruct (isinstance e RequestError); reflexivity.
Qed.

Lemma is_buy_signal_true_yes text E n :
  value (is_buy_signal text E n) = Ret true ->
  exists k r,
    (k = n Post \/ k = S (n Post))
    /\ post_outcome E k = Ret r
    /\ says_yes r.
Proof.
  rewrite is_buy_signal_run. cbv zeta.
  pose proof (is_buy_signal_wrapped_true text E n) as H1.
  pose proof (is_buy_signal_wrapped_posts text E n) as Hp.
  pose proof (is_buy_signal_wrapped_true text E (after (is_buy_signal_wrapped text E n)))
    as H2.
  revert H1 Hp H2. generalize (is_buy_signal_wrapped text E n). intros first H1 Hp H2.
  destruct (value first) as [b | e].
  - cbn [value]. intros [= ->]. destruct (H1 eq_refl) as (_ & r & Hr & Hy).
    exists (n Post), r. auto.
  - destruct (is_buy_signal_retry_on e); [| discriminate].
    cbn [value]. revert H2.
    generalize (is_buy_signal_wrapped text E (after first)). intros second H2.
    destruct (value second) as [b | e'].
    + intros [= ->]. destruct (H2 eq_refl) as (_ & r & Hr & Hy).
      exists (after first Post), r. auto.
    + destruct (is_buy_signal_retry_on e'); discriminate.
Qed.

(** X6.  [is_buy_signal] answers True only when one of its own requests,
    the first or the one of the retry, came back with status 200 and a
    first generated text that is YES; it never does on any other status, on
    a malformed body, or when the request failed. *)
Theorem true_only_on_a_yes_response :
  forall text E n,
    value (is_buy_signal text E n) = Ret true ->
    exists k r,
      (k = n Post \/ k = S (n Post))
      /\ post_outcome E k = Ret r
      /\ says_yes r.
Proof. intros text E n. apply is_buy_signal_true_yes. Qed.

Lemma true_only_on_a_yes_response_witness :
  value (is_buy_signal "Buy $XYZ now!!" (E_answers " yes ") fresh) = Ret true
  /\ exists k r,
       (k = fresh Post \/ k = S (fresh Post))
       /\ post_outcome (E_answers " yes ") k = Ret r
       /\ says_yes r.
Proof.
  split; [reflexivity |].
  exact (true_only_on_a_yes_response "Buy $XYZ now!!" (E_answers " yes ") fresh eq_refl).
Defined.

(** ** What a computation may emit *)

Section EmitsOnly.

Variable E : environment.
Variable P : event -> Prop.

Lemma emits_only_ret {A} (a : A) : emits_only E P (ret a).
Proof. intros n. constructor. Qed.

Lemma emits_only_raise {A} (e : exn) : emits_only E P (@raise A e).
Proof. intros n. constructor. Qed.

Lemma emits_only_emit (ev : event) : P ev -> emits_only E P (emit ev).
Proof. intros H n. constructor; [exact H | constructor]. Qed.

(** In a sequence, what follows may rely on the value having been
    produced. *)
Lemma emits_only_bind {A B} (m : M A) (k : A -> M B) :
  emits_only E P m ->
  (forall a n, value (m E n) = Ret a -> emits_only E P (k a)) ->
  emits_only E P (bind m k).
Proof.
  intros Hm Hk n. unfold bind. specialize (Hm n).
  destruct (value (m E n)) as [a | e] eqn:Hv; cbn [emitted]; [| exact Hm].
  apply Forall_app. split; [exact Hm | apply (Hk a n Hv)].
Qed.

Lemma emits_only_try_except {A} (m : M A) h :
  emits_only E P m ->
  (forall e k, h e = Some k -> emits_only E P k) ->
  emits_only E P (try_except m h).
Proof.
  intros Hm Hh n. unfold try_except. specialize (Hm n).
  destruct (value (m E n)) as [a | e]; [exact Hm |].
  destruct (h e) as [k |] eqn:Hk; [| exact Hm].
  cbn [emitted]. apply Forall_app. split; [exact Hm | apply (Hh e k Hk)].
Qed.

Lemma emits_only_try_finally {A} (m : M A) fin :
  emits_only E P m -> emits_only E P fin -> emits_only E P (try_finally m fin).
Proof.
  intros Hm Hf n. unfold try_finally. cbn [emitted].
  apply Forall_app. split; [apply Hm | apply Hf].
Qed.

Lemma emits_only_for_each {A} (l : list A) (body : A -> M unit) :
  (forall x, In x l -> emits_only E P (body x)) -> emits_only E P (for_each l body).
Proof.
  induction l as [| x l IH]; intros Hb; cbn [for_each].
  - apply emits_only_ret.
  - apply emits_only_bind; [apply Hb; now left |].
    intros _ _ _. apply IH. intros y Hy. apply Hb. now right.
Qed.

(** A computation that only logs, when [P] lets every log line through. *)
Lemma emits_only_quiet {A} (p : event -> bool) (m : M A) :
  quiet p m -> (forall ev, p ev = false -> P ev) -> emits_only E P m.
Proof.
  intros Hq Hp n. specialize (Hq E n).
  induction (emitted (m E n)) as [| ev l IH]; [constructor |].
  cbn [filter] in Hq. destruct (p ev) eqn:Hev; [discriminate |].
  constructor; [now apply Hp | now apply IH].
Qed.

End EmitsOnly.

Lemma emits_only_weaken E (P Q : event -> Prop) {A} (m : M A) :
  (forall ev, P ev -> Q ev) -> emits_only E P m -> emits_only E Q m.
Proof. intros H Hm n. eapply Forall_impl; [exact H | apply Hm]. Qed.

(** *** The classifier *)

Lemma emits_only_is_buy_signal_wrapped E text :
  emits_only E (of_a_classification E text) (is_buy_signal_wrapped text).
Proof.
  intros n.
  assert (Hread : forall r n', Forall (of_a_classification E text)
                                 (emitted (read_response r E n'))).
  { intros r. apply (emits_only_quiet E _ is_not_log).
    - apply quiet_read_response. reflexivity.
    - intros [] H; try discriminate H. exact I. }
  assert (Hbody : forall n', Forall (of_a_classification E text)
                               (emitted (request_and_read text E n'))).
  { intros n'. rewrite request_and_read_run.
    destruct (post_outcome E (n' Post)) as [r | e]; cbv zeta; cbn [emitted].
    - constructor; [reflexivity | apply Hread].
    - constructor; [reflexivity | constructor]. }
  destruct (open_connection_outcome E (n OpenConnection)) as [e |] eqn:Ho.
  - unfold is_buy_signal_wrapped, bind. rewrite check_network_connection_run, Ho.
    destruct (isinstance e gaierror || isinstance e OSError); cbn [value emitted negb];
      repeat constructor.
  - rewrite (is_buy_signal_wrapped_reachable text E n Ho). cbv zeta.
    specialize (Hbody (made OpenConnection n)). revert Hbody.
    generalize (request_and_read text E (made OpenConnection n)). intros body Hbody.
    destruct (value body) as [b | e]; [| destruct (isinstance e RequestError)];
      cbn [emitted]; (constructor; [reflexivity |]); try exact Hbody;
      (apply Forall_app; split; [exact Hbody | repeat constructor]).
Qed.

Lemma emits_only_is_buy_signal E text :
  emits_only E (of_a_classification E text) (is_buy_signal text).
Proof.
  intros n. rewrite is_buy_signal_run. cbv zeta.
  pose proof (emits_only_is_buy_signal_wrapped E text n) as H1.
  pose proof (emits_only_is_buy_signal_wrapped E text
                (after (is_buy_signal_wrapped text E n))) as H2.
  revert H1 H2. generalize (is_buy_signal_wrapped text E n). intros first H1.
  generalize (is_buy_signal_wrapped text E (after first)). intros second H2.
  destruct (value first) as [b | e]; [exact H1 |].
  destruct (is_buy_signal_retry_on e); [| exact H1].
  cbn [emitted]. apply Forall_app. split; [exact H1 |].
  constructor; [reflexivity | exact H2].
Qed.

(** *** The scraper *)

(** The loop over the entries only logs. *)
Lemma scrape_entries_only_logs p handle cutoff els tweets :
  (forall lvl msg, p (Log lvl msg) = false) ->
  quiet p (scrape_entries handle cutoff els tweets).
Proof.
  intros Hlog. revert tweets; induction els as [| el els IH]; intros tweets; simpl.
  - apply quiet_ret.
  - apply quiet_bind.
    + apply quiet_attempt, quiet_try_except.
      * unfold extract_tweet, method_of, item, log. quiet_steps.
      * intros e k Hk. handler_cases Hk. unfold log; quiet_steps.
    + intros [tweets' | e]; [apply IH | apply quiet_ret].
Qed.

Lemma emits_only_load_timeline E handle :
  emits_only E (of_a_scrape handle) (load_timeline handle).
Proof.
  intros n. rewrite load_timeline_run.
  destruct (driver_get_outcome E (n DriverGet)); repeat constructor.
Qed.

Lemma emits_only_get_recent_tweets E handle :
  emits_only E (of_a_scrape handle) (get_recent_tweets handle).
Proof.
  intros n.
  pose proof (emits_only_load_timeline E handle (made Clock n)) as Hpage.
  destruct (value (load_timeline handle E (made Clock n))) as [found | e] eqn:Hp.
  - destruct (safe_scrape_entries handle (cutoff_at E n) (firstn 5 found) [] E
                (after (load_timeline handle E (made Clock n))))
      as [[tweets escaped] Hl].
    rewrite (get_recent_tweets_page handle E n found tweets escaped Hp Hl). cbv zeta.
    assert (Hloop : Forall (of_a_scrape handle)
              (emitted (scrape_entries handle (cutoff_at E n) (firstn 5 found) [] E
                          (after (load_timeline handle E (made Clock n)))))).
    { apply (emits_only_quiet E _ is_not_log).
      - apply scrape_entries_only_logs. reflexivity.
      - intros [] H; try discriminate H. exact I. }
    revert Hpage Hloop.
    generalize (scrape_entries handle (cutoff_at E n) (firstn 5 found) [] E
                  (after (load_timeline handle E (made Clock n)))).
    generalize (load_timeline handle E (made Clock n)). intros page loop Hpage Hloop.
    cbn [emitted]. constructor; [exact I |].
    apply Forall_app. split; [exact Hpage |]. constructor; [exact I |].
    apply Forall_app. split; [exact Hloop |].
    apply Forall_app. split; [destruct escaped |]; repeat constructor.
  - rewrite (get_recent_tweets_no_page handle E n e Hp). cbv zeta.
    revert Hpage. generalize (load_timeline handle E (made Clock n)). intros page Hpage.
    cbn [emitted]. constructor; [exact I |].
    apply Forall_app. split; [exact Hpage | repeat constructor].
Qed.

(** What [get_recent_tweets] returns: at most five tweets, each with the
    invariants of a retained tweet. *)
Lemma get_recent_tweets_retained handle E n tweets :
  value (get_recent_tweets handle E n) = Ret tweets ->
  Forall (retained handle (cutoff_at E n)) tweets /\ (List.length tweets <= 5)%nat.
Proof.
  pose proof (get_recent_tweets_result handle E n) as H.
  destruct (value (load_timeline handle E (made Clock n))) as [found | e].
  - destruct H as (out & escaped & Hl & ->). intros [= <-].
    destruct (scrape_entries_invariant _ _ _ _ _ _ _ _ Hl (Forall_nil _)) as [Hf Hn].
    split; [exact Hf |].
    pose proof (firstn_le_length 5 found) as H5.
    change (List.length (@nil Tweet)) with O in Hn. lia.
  - rewrite H. intros [= <-]. split; [constructor | simpl; lia].
Qed.

(** *** The turn of a tweet and of an account *)

Lemma classification_of_an_account E handle name text ev :
  (String.length text <= 500)%nat ->
  of_a_classification E text ev -> of_an_account E handle name ev.
Proof.
  intros Hlen. destruct ev; cbn; try tauto.
  intros H. exists text. split; assumption.
Qed.

Lemma emits_only_process_tweet E handle name t :
  tweet_handle t = handle ->
  (String.length (tweet_text t) <= 500)%nat ->
  emits_only E (of_an_account E handle name) (process_tweet handle name t).
Proof.
  intros Hh Hlen n.
  pose proof (process_tweet_run handle name t E n) as Hr. cbv zeta in Hr.
  rewrite Hr. clear Hr.
  pose proof (emits_only_weaken E _ _ _
                (fun ev => classification_of_an_account E handle name _ ev Hlen)
                (emits_only_is_buy_signal E (tweet_text t)) n) as Hc.
  pose proof (is_buy_signal_true_yes (tweet_text t) E n) as Hy.
  revert Hc Hy. generalize (is_buy_signal (tweet_text t) E n). intros c Hc Hy.
  destruct (value c) as [[|] | e]; cbn [emitted];
    (constructor; [exact I |]); (apply Forall_app; split; [exact Hc |]).
  - constructor; [exact I |]. constructor.
    + cbn. split; [reflexivity |]. split.
      * exists t. auto.
      * destruct (Hy eq_refl) as (k & r & _ & Hk & Hyes). now exists k, r.
    + constructor; [| constructor].
      now destruct (send_message_outcome E (after c SendMessage)).
  - repeat constructor.
  - repeat constructor.
Qed.

Lemma scrape_of_an_account E handle name ev :
  of_a_scrape handle ev -> of_an_account E handle name ev.
Proof. destruct ev; cbn; tauto. Qed.

Lemma emits_only_check_account E handle name :
  emits_only E (of_an_account E handle name) (check_account (handle, name)).
Proof.
  unfold check_account, log.
  apply emits_only_bind; [apply emits_only_emit; exact I | intros _ _ _].
  apply emits_only_bind.
  { apply (emits_only_weaken E (of_a_scrape handle));
      [apply scrape_of_an_account | apply emits_only_get_recent_tweets]. }
  intros tweets n Hv.
  destruct (get_recent_tweets_retained handle E n tweets Hv) as [Hf _].
  clear Hv. destruct tweets as [| t ts]; [apply emits_only_emit; exact I |].
  apply emits_only_bind; [apply emits_only_emit; exact I | intros _ _ _].
  apply emits_only_for_each. intros x Hx.
  rewrite Forall_forall in Hf. destruct (Hf x Hx) as (Hlen & _ & _ & Hh).
  now apply emits_only_process_tweet.
Qed.

Lemma emits_only_accounts E :
  emits_only E (of_a_cycle E) (for_each INFLUENCERS check_account).
Proof.
  apply emits_only_for_each. intros [handle name] Hin.
  apply (emits_only_weaken E (of_an_account E handle name));
    [| apply emits_only_check_account].
  intros ev Hev. destruct ev; try exact I; exists handle, name; split; assumption.
Qed.

Lemma emits_only_guarded_cycle E P (body : M unit) :
  (forall lvl msg, P (Log lvl msg)) -> P EvDriverQuit ->
  emits_only E P body -> emits_only E P (guarded_cycle body).
Proof.
  intros Hlog Hquit Hb n. rewrite guarded_cycle_run. cbv zeta.
  specialize (Hb n). revert Hb. generalize (body E n). intros b Hb.
  apply Forall_app. split; [exact Hb |].
  apply Forall_app. split; [destruct (value b); repeat constructor; apply Hlog |].
  constructor; [exact Hquit |]. constructor; [| constructor; [apply Hlog | constructor]].
  destruct (driver_quit_outcome E (after b DriverQuit)); apply Hlog.
Qed.

Lemma of_a_cycle_log E lvl msg : of_a_cycle E (Log lvl msg).
Proof. exact I. Qed.

Lemma emits_only_check_influencers E : emits_only E (of_a_cycle E) check_influencers.
Proof.
  rewrite check_influencers_unfold. unfold log.
  apply emits_only_bind; [apply emits_only_emit, of_a_cycle_log | intros _ _ _].
  apply emits_only_bind.
  - intros n. rewrite TwitterScraper_init_run.
    destruct (chrome_start E (n ChromeStart));
      (constructor; [exact I |]); (constructor; [apply of_a_cycle_log | constructor]).
  - intros _ _ _. apply emits_only_guarded_cycle;
      [apply of_a_cycle_log | exact I | apply emits_only_accounts].
Qed.

(** *** A cycle, seen from outside *)

Lemma Forall_sent (P : event -> Prop) (Q : string * string -> Prop) (l : list event) :
  (forall chat_id text, P (EvSendMessage chat_id text) -> Q (chat_id, text)) ->
  Forall P l -> Forall Q (sent l).
Proof.
  intros H Hl. induction Hl as [| ev l Hev _ IH]; [constructor |].
  destruct ev; cbn [sent flat_map app]; try exact IH.
  constructor; [now apply H | exact IH].
Qed.


(** X8.  When no request to the endpoint is answered with status 200 and a
    first generated text that is YES, a cycle sends nothing, whatever the
    pages hold. *)
Theorem no_alert_without_a_yes :
  forall E n,
    (forall k r, post_outcome E k = Ret r -> ~ says_yes r) ->
    sent (emitted (check_influencers E n)) = [].
Proof.
  intros E n Hno.
  assert (H : Forall (fun _ => False) (sent (emitted (check_influencers E n)))).
  { apply (Forall_sent (of_a_cycle E)); [| apply emits_only_check_influencers].
    intros chat_id text (handle & name & _ & _ & _ & k & r & Hk & Hy).
    exact (Hno k r Hk Hy). }
  revert H. generalize (sent (emitted (check_influencers E n))).
  intros [| message l] H; [reflexivity |]. now inversion H.
Qed.

Lemma no_alert_without_a_yes_witness :
  (forall k r, post_outcome E_bad_permalink k = Ret r -> ~ says_yes r)
  /\ sent (emitted (check_influencers E_bad_permalink fresh)) = [].
Proof.
  assert (H : forall k r, post_outcome E_bad_permalink k = Ret r -> ~ says_yes r).
  { intros k r Hr (_ & first & rest & s & Hb & Hg & Hy).
    injection Hr as <-. cbn in Hb. injection Hb as <- <-.
    cbn in Hg. injection Hg as <-. discriminate Hy. }
  split; [exact H |].
  exact (no_alert_without_a_yes E_bad_permalink fresh H).
Defined.

(** X9.  What a cycle does outside the process: it loads only the Nitter
    pages of the accounts of [INFLUENCERS] and queries them only for
    [.timeline-item]; it probes only port 443 of the endpoint's host; each
    request goes to [HF_API_URL] with the bearer token and the timeout of
    30 seconds, and carries a prompt made by [create_prompt], of at most
    779 characters; and it sleeps 3 seconds after a page load or 2 seconds
    before a retry. *)
Theorem cycle_calls_only_its_endpoints :
  forall E n,
    Forall (fun ev =>
              match ev with
              | EvDriverGet url =>
                  exists handle name,
                    In (handle, name) INFLUENCERS
                    /\ url = ("https://nitter.net/" ++ handle)%string
              | EvFindElements selector => selector = ".timeline-item"%string
              | EvOpenConnection host port =>
                  host = "api-inference.huggingface.co"%string /\ port = 443
              | EvPost url authorization inputs timeout =>
                  url = HF_API_URL
                  /\ authorization = ("Bearer " ++ HF_API_TOKEN E)%string
                  /\ timeout = 30
                  /\ (exists text, inputs = create_prompt text)
                  /\ (String.length inputs <= 779)%nat
              | EvSleep seconds => seconds = 3 \/ seconds = 2
              | _ => True
              end)
      (emitted (check_influencers E n)).
Proof.
  intros E n. eapply Forall_impl; [| apply emits_only_check_influencers].
  intros ev Hev. destruct ev; try exact I;
    destruct Hev as (handle & name & Hin & Hev); cbn in Hev.
  - exists handle, name. now split.
  - exact Hev.
  - exact Hev.
  - injection Hev as -> ->. now split.
  - destruct Hev as (text & Hev & _). injection Hev as -> -> -> ->.
    split; [reflexivity |]. split; [reflexivity |]. split; [reflexivity |].
    split; [now exists text | apply length_create_prompt].
Qed.

(** ** How much a cycle does *)

Section AtMost.

Variable p : event -> bool.

Lemma at_most_quiet {A} (m : M A) : quiet p m -> at_most p 0 m.
Proof. intros H E n. now rewrite (quiet_count p m E n H). Qed.

Lemma at_most_weaken {A} (m : M A) (b b' : nat) :
  (b <= b')%nat -> at_most p b m -> at_most p b' m.
Proof. intros Hb H E n. specialize (H E n). lia. Qed.

Lemma at_most_bind {A B} (m : M A) (k : A -> M B) (Q : A -> Prop) (b1 b2 : nat) :
  (forall E n a, value (m E n) = Ret a -> Q a) ->
  at_most p b1 m ->
  (forall a, Q a -> at_most p b2 (k a)) ->
  at_most p (b1 + b2) (bind m k).
Proof.
  intros HQ Hm Hk E n. unfold bind. specialize (Hm E n). specialize (HQ E n).
  destruct (value (m E n)) as [a | e]; cbn [emitted]; [| lia].
  rewrite count_app. specialize (Hk a (HQ a eq_refl) E (after (m E n))). lia.
Qed.

Lemma at_most_try_except {A} (m : M A) h (b : nat) :
  at_most p b m ->
  (forall e k, h e = Some k -> quiet p k) ->
  at_most p b (try_except m h).
Proof.
  intros Hm Hh E n. unfold try_except. specialize (Hm E n).
  destruct (value (m E n)) as [a | e]; [exact Hm |].
  destruct (h e) as [k |] eqn:Hk; [| exact Hm].
  cbn [emitted]. rewrite count_app, (quiet_count p k E _ (Hh e k Hk)). lia.
Qed.

Lemma at_most_for_each {A} (l : list A) (body : A -> M unit) (b : nat) :
  (forall x, at_most p b (body x)) ->
  at_most p (List.length l * b) (for_each l body).
Proof.
  intros Hb. induction l as [| x l IH]; cbn [for_each List.length Nat.mul].
  - apply at_most_quiet, quiet_ret.
  - apply (at_most_bind _ _ (fun _ => True)); auto.
Qed.

End AtMost.

(** An attempt of the classifier makes at most one request. *)
Lemma one_post_per_attempt text : at_most is_post 1 (is_buy_signal_wrapped text).
Proof.
  intros E n.
  destruct (open_connection_outcome E (n OpenConnection)) as [e |] eqn:Ho.
  - unfold is_buy_signal_wrapped, bind. rewrite check_network_connection_run, Ho.
    destruct (isinstance e gaierror || isinstance e OSError); cbn; lia.
  - rewrite (is_buy_signal_wrapped_reachable text E n Ho). cbv zeta.
    assert (Hb : (count is_post (emitted (request_and_read text E (made OpenConnection n)))
                  <= 1)%nat).
    { rewrite request_and_read_run.
      destruct (post_outcome E (made OpenConnection n Post)) as [r | e];
        cbv zeta; cbn [emitted]; [| cbn; lia].
      change (count is_post (post_event E text :: ?l)) with (S (count is_post l)).
      rewrite (quiet_count is_post (read_response r) E _); [lia |].
      apply quiet_read_response. reflexivity. }
    revert Hb. generalize (request_and_read text E (made OpenConnection n)). intros body Hb.
    destruct (value body) as [b | e]; [| destruct (isinstance e RequestError)];
      cbn [emitted];
      change (count is_post (probe_event :: ?l)) with (count is_post l);
      rewrite ?count_app; cbn [count filter is_post List.length]; lia.
Qed.

Lemma two_posts_per_call text : at_most is_post 2 (is_buy_signal text).
Proof.
  intros E n. rewrite is_buy_signal_run. cbv zeta.
  pose proof (one_post_per_attempt text E n) as H1.
  pose proof (one_post_per_attempt text E (after (is_buy_signal_wrapped text E n))) as H2.
  revert H1 H2. generalize (is_buy_signal_wrapped text E n). intros first H1.
  generalize (is_buy_signal_wrapped text E (after first)). intros second H2.
  destruct (value first) as [b | e]; cbn [emitted]; [lia |].
  destruct (is_buy_signal_retry_on e); cbn [emitted]; [| lia].
  rewrite count_app.
  change (count is_post (EvSleep 2 :: emitted second))
    with (count is_post (emitted second)).
  lia.
Qed.

(** The turn of a tweet: at most two requests and one message. *)
Lemma process_tweet_budget handle name t E n :
  (count is_post (emitted (process_tweet handle name t E n)) <= 2)%nat
  /\ (count is_send (emitted (process_tweet handle name t E n)) <= 1)%nat.
Proof.
  pose proof (process_tweet_run handle name t E n) as Hr. cbv zeta in Hr.
  rewrite Hr. clear Hr.
  pose proof (two_posts_per_call (tweet_text t) E n) as Hp.
  pose proof (quiet_count is_send (is_buy_signal (tweet_text t)) E n
                (quiet_send_is_buy_signal _)) as Hs.
  revert Hp Hs. generalize (is_buy_signal (tweet_text t) E n). intros c Hp Hs.
  destruct (value c) as [[|] | e]; cbn [emitted];
    change (count ?p (Log ?lvl ?msg :: ?l)) with (count p l);
    rewrite !count_app, Hs; split; try (cbn; lia).
  - destruct (send_message_outcome E (after c SendMessage)); cbn; lia.
  - destruct (send_message_outcome E (after c SendMessage)); cbn; lia.
Qed.

Lemma check_account_budget account :
  at_most is_post 10 (check_account account) /\ at_most is_send 5 (check_account account).
Proof.
  destruct account as [handle name]. unfold check_account, log.
  assert (H : forall p b,
             (forall ev, p ev = true -> other_than_scraping ev = true) ->
             (forall lvl msg, p (Log lvl msg) = false) ->
             (forall t, at_most p b (process_tweet handle name t)) ->
             at_most p (5 * b)
               (bind (emit (Log INFO ("Checking " ++ name)))
                  (fun _ => bind (get_recent_tweets handle)
                     (fun tweets =>
                        match tweets with
                        | [] => emit (Log DEBUG "No recent tweets")
                        | _ :: _ =>
                            bind (emit (Log INFO ("Analyzing "
                                    ++ PyStr.of_nat (List.length tweets) ++ " tweets")))
                              (fun _ => for_each tweets (process_tweet handle name))
                        end)))).
  { intros p b Hscr Hlog Hb.
    apply (at_most_bind p _ _ (fun _ => True) 0 (5 * b)); [auto | |].
    { apply at_most_quiet, quiet_emit, Hlog. }
    intros _ _.
    apply (at_most_bind p _ _ (fun tweets => (List.length tweets <= 5)%nat) 0 (5 * b)).
    - intros E n tweets Hv. now apply (get_recent_tweets_retained handle E n).
    - apply at_most_quiet. apply (quiet_weaken other_than_scraping); [exact Hscr |].
      apply quiet_get_recent_tweets.
    - intros tweets Hlen. destruct tweets as [| t ts].
      + apply (at_most_weaken p _ 0); [lia |]. apply at_most_quiet, quiet_emit, Hlog.
      + apply (at_most_bind p _ _ (fun _ => True) 0 (5 * b)); [auto | |].
        { apply at_most_quiet, quiet_emit, Hlog. }
        intros _ _. apply (at_most_weaken p _ (List.length (t :: ts) * b)); [nia |].
        now apply at_most_for_each. }
  split.
  - apply (H is_post 2%nat); [now intros [] | reflexivity |].
    intros t E n. apply process_tweet_budget.
  - apply (H is_send 1%nat); [now intros [] | reflexivity |].
    intros t E n. apply process_tweet_budget.
Qed.

Lemma count_skip p (ev : event) (l : list event) :
  p ev = false -> count p (ev :: l) = count p l.
Proof. intros H. unfold count. cbn [filter]. now rewrite H. Qed.

(** What surrounds the loop over the accounts adds no event of a kind
    that is neither a log line nor the start or the end of the browser. *)
Lemma check_influencers_at_most p b :
  (forall lvl msg, p (Log lvl msg) = false) ->
  p EvChromeStart = false -> p EvDriverQuit = false ->
  at_most p b (for_each INFLUENCERS check_account) ->
  at_most p b check_influencers.
Proof.
  intros Hlog Hstart Hquit Hb E n. rewrite check_influencers_unfold.
  destruct (chrome_start E (n ChromeStart)) as [e |] eqn:Hc.
  - rewrite (failed_start_run _ E n e Hc). cbn [emitted].
    rewrite !count_skip by auto. cbn. lia.
  - rewrite (started_cycle_run _ E n Hc). cbn [emitted].
    rewrite !count_skip by auto.
    rewrite guarded_cycle_run. cbv zeta.
    specialize (Hb E (made ChromeStart n)). revert Hb.
    generalize (for_each INFLUENCERS check_account E (made ChromeStart n)).
    intros body Hb. cbn [emitted]. rewrite !count_app.
    assert (H1 : count p match value body with
                         | Ret _ => []
                         | Raise e => [Log ERROR ("Cycle error: " ++ str_exn e)]
                         end = O).
    { destruct (value body); [reflexivity |]. now rewrite count_skip. }
    rewrite H1, count_skip by auto. rewrite count_skip.
    + rewrite count_skip by auto. cbn. lia.
    + destruct (driver_quit_outcome E (after body DriverQuit)); apply Hlog.
Qed.

(** X10.  A cycle makes at most 120 requests to the endpoint (twelve
    accounts, five tweets each, two attempts each) and sends at most 60
    messages. *)
Theorem cycle_budget :
  forall E n,
    (count is_post (emitted (check_influencers E n)) <= 120)%nat
    /\ (count is_send (emitted (check_influencers E n)) <= 60)%nat.
Proof.
  intros E n. split.
  - apply (check_influencers_at_most is_post 120); try reflexivity.
    apply (at_most_for_each is_post INFLUENCERS check_account 10).
    intros account. apply check_account_budget.
  - apply (check_influencers_at_most is_send 60); try reflexivity.
    apply (at_most_for_each is_send INFLUENCERS check_account 5).
    intros account. apply check_account_budget.
Qed.

(** ** The pages of a cycle *)

Lemma loaded_app (a b : list event) : loaded (a ++ b)%list = (loaded a ++ loaded b)%list.
Proof. unfold loaded. now rewrite flat_map_app. Qed.

Lemma loaded_skip (ev : event) (l : list event) :
  is_get ev = false -> loaded (ev :: l) = loaded l.
Proof. now destruct ev. Qed.

Lemma quiet_loaded {A} (m : M A) E n : quiet is_get m -> loaded (emitted (m E n)) = [].
Proof.
  intros H. specialize (H E n).
  induction (emitted (m E n)) as [| ev l IH]; [reflexivity |].
  simpl in H. destruct ev; simpl in *; try discriminate; auto.
Qed.

(** A scrape loads the page of its account, once. *)
Lemma loaded_get_recent_tweets handle E n :
  loaded (emitted (get_recent_tweets handle E n)) = ["https://nitter.net/" ++ handle]%string.
Proof.
  assert (Hpage : loaded (emitted (load_timeline handle E (made Clock n)))
                  = ["https://nitter.net/" ++ handle]%string).
  { rewrite load_timeline_run.
    destruct (driver_get_outcome E (made Clock n DriverGet)); reflexivity. }
  destruct (value (load_timeline handle E (made Clock n))) as [found | e] eqn:Hp.
  - destruct (safe_scrape_entries handle (cutoff_at E n) (firstn 5 found) [] E
                (after (load_timeline handle E (made Clock n))))
      as [[tweets escaped] Hl].
    rewrite (get_recent_tweets_page handle E n found tweets escaped Hp Hl). cbv zeta.
    pose proof (quiet_loaded (scrape_entries handle (cutoff_at E n) (firstn 5 found) [])
                  E (after (load_timeline handle E (made Clock n)))
                  (scrape_entries_only_logs is_get _ _ _ _ (fun _ _ => eq_refl))) as Hloop.
    revert Hpage Hloop.
    generalize (scrape_entries handle (cutoff_at E n) (firstn 5 found) [] E
                  (after (load_timeline handle E (made Clock n)))).
    generalize (load_timeline handle E (made Clock n)). intros page loop Hpage Hloop.
    cbn [emitted]. rewrite loaded_skip by reflexivity.
    rewrite loaded_app, Hpage, loaded_skip by reflexivity.
    rewrite !loaded_app, Hloop. now destruct escaped.
  - rewrite (get_recent_tweets_no_page handle E n e Hp). cbv zeta.
    revert Hpage. generalize (load_timeline handle E (made Clock n)). intros page Hpage.
    cbn [emitted]. rewrite loaded_skip by reflexivity.
    now rewrite loaded_app, Hpage.
Qed.

Lemma quiet_get_process_tweet handle name t : quiet is_get (process_tweet handle name t).
Proof.
  unfold process_tweet, log.
  apply quiet_bind; [apply quiet_emit; reflexivity | intros _].
  apply quiet_try_except.
  - unfold classify_and_alert, bot_send_message, log. apply quiet_bind.
    + apply (quiet_weaken other_than_classifying); [| apply quiet_is_buy_signal].
      now intros [].
    + intros is_buy. quiet_steps.
  - intros e k Hk. handler_cases Hk. apply quiet_emit. reflexivity.
Qed.

(** The turn of an account loads the page of the account, once, whatever
    happens to its tweets. *)
Lemma loaded_check_account handle name E n :
  loaded (emitted (check_account (handle, name) E n))
  = ["https://nitter.net/" ++ handle]%string.
Proof.
  unfold check_account, log. rewrite bind_emit. cbn [emitted].
  rewrite loaded_skip by reflexivity. unfold bind at 1.
  pose proof (loaded_get_recent_tweets handle E n) as Hg.
  destruct (safe_get_recent_tweets handle E n) as [tweets Hv].
  revert Hg Hv. generalize (get_recent_tweets handle E n). intros g Hg Hv.
  rewrite Hv. cbn [emitted]. rewrite loaded_app, Hg.
  destruct tweets as [| t ts]; [reflexivity |].
  rewrite bind_emit. cbn [emitted]. rewrite loaded_skip by reflexivity.
  rewrite (quiet_loaded (for_each (t :: ts) (process_tweet handle name)) E (after g));
    [reflexivity |].
  apply quiet_for_each. intros x. apply quiet_get_process_tweet.
Qed.

Lemma loaded_accounts (accounts : list (string * string)) E n :
  loaded (emitted (for_each accounts check_account E n))
  = map (fun account => ("https://nitter.net/" ++ fst account)%string) accounts.
Proof.
  revert n. induction accounts as [| [handle name] rest IH]; intros n; [reflexivity |].
  cbn [for_each map fst]. unfold bind.
  destruct (safe_check_account (handle, name) E n) as [[] Hv].
  pose proof (loaded_check_account handle name E n) as Hl.
  revert Hv Hl. generalize (check_account (handle, name) E n). intros c Hv Hl.
  rewrite Hv. cbn [emitted]. now rewrite loaded_app, Hl, IH.
Qed.

(** X11.  Once the browser has started, a cycle loads the page of every
    account of [INFLUENCERS], once each and in the order of the list,
    whatever fails on the way: no failure of a page, of a tweet or of the
    classifier keeps the later accounts from being checked.  When the
    browser does not start, no page is loaded. *)
Theorem cycle_checks_every_account :
  forall E n,
    loaded (emitted (check_influencers E n))
    = match chrome_start E (n ChromeStart) with
      | None =>
          map (fun account => ("https://nitter.net/" ++ fst account)%string) INFLUENCERS
      | Some _ => []
      end.
Proof.
  intros E n. rewrite check_influencers_unfold.
  destruct (chrome_start E (n ChromeStart)) as [e |] eqn:Hc.
  - now rewrite (failed_start_run _ E n e Hc).
  - rewrite (started_cycle_run _ E n Hc). cbn [emitted].
    rewrite !loaded_skip by reflexivity.
    rewrite guarded_cycle_run. cbv zeta.
    pose proof (loaded_accounts INFLUENCERS E (made ChromeStart n)) as Hb. revert Hb.
    generalize (for_each INFLUENCERS check_account E (made ChromeStart n)).
    intros body Hb. cbn [emitted]. rewrite !loaded_app, Hb.
    assert (H1 : loaded match value body with
                        | Ret _ => []
                        | Raise e => [Log ERROR ("Cycle error: " ++ str_exn e)]
                        end = []) by now destruct (value body).
    rewrite H1. cbn [app]. rewrite loaded_skip by reflexivity.
    rewrite loaded_skip.
    + rewrite loaded_skip by reflexivity. cbn [loaded flat_map]. apply app_nil_r.
    + now destruct (driver_quit_outcome E (after body DriverQuit)).
Qed.

(** ** The browser *)

(** X12.  [close] never raises: it calls [driver.quit()] once, and logs
    either that the browser is closed or the exception of the call; the
    counters of the other calls are as before. *)
Theorem close_contains_failures :
  forall E n,
    value (close E n) = Ret tt
    /\ count is_quit (emitted (close E n)) = 1%nat
    /\ after (close E n) = made DriverQuit n
    /\ match driver_quit_outcome E (n DriverQuit) with
       | None => emitted (close E n) = [EvDriverQuit; Log DEBUG "WebDriver closed"]
       | Some e =>
           emitted (close E n) = [EvDriverQuit; Log ERROR ("Close error: " ++ str_exn e)]
       end.
Proof.
  intros E n. rewrite close_run. cbn [value after emitted].
  destruct (driver_quit_outcome E (n DriverQuit)); repeat split; reflexivity.
Qed.

(** X13.  When Chrome does not start, the constructor logs the exception
    and raises it again, and the cycle ends there: the exception leaves
    [check_influencers], and no page is loaded, no request is made, no
    message is sent and nothing is closed. *)
Theorem failed_browser_start_ends_the_cycle :
  forall E n e,
    chrome_start E (n ChromeStart) = Some e ->
    value (TwitterScraper_init E n) = Raise e
    /\ value (check_influencers E n) = Raise e
    /\ emitted (check_influencers E n)
       = [Log INFO "Starting monitoring cycle"; EvChromeStart;
          Log ERROR ("WebDriver init failed: " ++ str_exn e)]
    /\ after (check_influencers E n) = made ChromeStart n.
Proof.
  intros E n e Hc. split.
  - now rewrite TwitterScraper_init_run, Hc.
  - rewrite check_influencers_unfold, (failed_start_run _ E n e Hc).
    repeat split; reflexivity.
Qed.

Lemma failed_browser_start_ends_the_cycle_witness :
  chrome_start E_no_chrome (fresh ChromeStart) = Some chrome_failure
  /\ value (check_influencers E_no_chrome fresh) = Raise chrome_failure.
Proof.
  split; [reflexivity |].
  exact (proj1 (proj2
    (failed_browser_start_ends_the_cycle E_no_chrome fresh chrome_failure eq_refl))).
Defined.

(** ** Startup *)

Lemma filter_nil_none {A} (f : A -> bool) (l : list A) x :
  filter f l = [] -> In x l -> f x = false.
Proof.
  intros H Hin. destruct (f x) eqn:Hx; [| reflexivity].
  assert (Hf : In x (filter f l)) by (apply filter_In; now split).
  rewrite H in Hf. destruct Hf.
Qed.

Lemma not_missing st var :
  is_missing st var = false -> exists v, getenv st var = Some v /\ v <> ""%string.
Proof.
  unfold is_missing. destruct (getenv st var) as [v |]; [| discriminate].
  intros H. exists v. split; [reflexivity |]. now destruct v.
Qed.

(** X14.  [main] never raises.  When one of the three settings is not set
    or is empty, all it does is log one error line that names the missing
    ones, in the order of [required_vars].  Anything else it does
    (building the application, scheduling, polling) it does with the three
    settings non-empty.  And polling starts only after the application was
    built with [TELEGRAM_BOT_TOKEN], the error handler added and
    [check_influencers] scheduled every 3600 seconds, first after 10. *)
Theorem main_starts_only_when_configured :
  forall st,
    fst (main st) = Ret tt
    /\ (filter (is_missing st) required_vars <> [] ->
        snd (main st)
        = [StLog ERROR
             ("Missing: " ++ String.concat ", " (filter (is_missing st) required_vars))])
    /\ (forall ev,
          In ev (snd (main st)) -> is_startup_log ev = false ->
          forall var, In var required_vars ->
                      exists v, getenv st var = Some v /\ v <> ""%string)
    /\ (In StRunPolling (snd (main st)) ->
        exists rest,
          snd (main st)
          = ([StBuild (getenv st "TELEGRAM_BOT_TOKEN"); StAddErrorHandler;
              StRunRepeating 3600 10; StLog INFO "Bot started"; StRunPolling]
             ++ rest)%list).
Proof.
  intros st. unfold main. cbv zeta.
  destruct (filter (is_missing st) required_vars) as [| var0 more] eqn:Hm.
  - assert (Hall : forall var, In var required_vars ->
                     exists v, getenv st var = Some v /\ v <> ""%string).
    { intros var Hin. apply not_missing. exact (filter_nil_none _ _ var Hm Hin). }
    cbn [run_block].
    destruct (build_outcome st) as [e1 |];
      [| destruct (add_error_handler_outcome st) as [e2 |];
         [| destruct (run_repeating_outcome st) as [e3 |];
            [| destruct (run_polling_outcome st) as [e4 |]]]];
      rewrite ?isinstance_Exception; cbn [fst snd app];
      (split; [reflexivity |]); (split; [intros H; now destruct H |]);
      (split; [intros ev _ _; exact Hall |]).
    + intros [H | [H | []]]; discriminate H.
    + intros [H | [H | [H | []]]]; discriminate H.
    + intros [H | [H | [H | [H | []]]]]; discriminate H.
    + intros _. now exists [StLog ERROR ("Startup failed: " ++ str_exn e4)].
    + intros _. now exists [].
  - cbn [fst snd]. split; [reflexivity |]. split; [reflexivity |]. split.
    + intros ev [<- | []] H. discriminate H.
    + intros [H | []]. discriminate H.
Qed.

Example main_sample :
  main sample_startup
  = (Ret tt,
     [StBuild (Some "12345:token"%string); StAddErrorHandler; StRunRepeating 3600 10;
      StLog INFO "Bot started"; StRunPolling])
  /\ main startup_without_settings
     = (Ret tt, [StLog ERROR "Missing: HF_API_TOKEN, GROUP_CHAT_ID"]).
Proof. split; reflexivity. Qed.
